(** * The TX2 HSP doorbell driver (libtx2bpmp/src/hsp.c)

    A shallow embedding of the driver: 32-bit machine integers over [Z],
    a byte-addressed little-endian memory for the mapped register block,
    a store of handle structures, and a trace of the hardware accesses and
    mapping-service calls the driver makes.  The four public functions are
    state transformers over that machine; a failed [assert] or the fatal
    default branch of the doorbell switch stops the run.

    Addresses are integers and pointer arithmetic counts bytes.  The log
    output of ZF_LOGE is not part of the machine. *)

From Stdlib Require Import ZArith List Bool Lia.
Import ListNotations.
Open Scope Z_scope.

(* ================================================================== *)
(** * Machine integers *)

(** [uint32_t]: values are kept in [0, 2^32). *)
Definition wrap32 (x : Z) : Z := x mod 2 ^ 32.

(** Conversion of a 32-bit pattern to [int] (two's complement). *)
Definition to_int32 (x : Z) : Z :=
  if wrap32 x <? 2 ^ 31 then wrap32 x else wrap32 x - 2 ^ 32.

(** [~x] on a 32-bit operand. *)
Definition not32 (x : Z) : Z := wrap32 (Z.lnot x).

(* ================================================================== *)
(** * Memory: one byte per address, 32-bit accesses are little-endian *)

Definition mem := Z -> Z.

Definition byte_at (m : mem) (a : Z) : Z := m a mod 256.

Definition load32 (m : mem) (a : Z) : Z :=
  byte_at m a
  + 2 ^ 8 * byte_at m (a + 1)
  + 2 ^ 16 * byte_at m (a + 2)
  + 2 ^ 24 * byte_at m (a + 3).

Definition store32 (m : mem) (a v : Z) : mem :=
  fun x =>
    if x =? a then v mod 256
    else if x =? a + 1 then (v / 2 ^ 8) mod 256
    else if x =? a + 2 then (v / 2 ^ 16) mod 256
    else if x =? a + 3 then (v / 2 ^ 24) mod 256
    else m x.

(* ================================================================== *)
(** * External interfaces used by the driver *)

(** [pmem_type_t] of platsupport/pmem.h. *)
Inductive pmem_type_t := PMEM_TYPE_RAM | PMEM_TYPE_UNKNOWN | PMEM_TYPE_DEVICE.

Record pmem_region_t := {
  type : pmem_type_t;
  base_addr : Z;
  length : Z
}.

(** [ps_mem_flags_t] of platsupport/io.h: access hints of a mapping. *)
Inductive ps_mem_flags_t := PS_MEM_NORMAL | PS_MEM_HR | PS_MEM_HW.

(** Modelled from the spec: the memory mapping service behind
    [ps_io_ops_t], which is not part of this repository:
    [map(physicalAddress, length, cacheable, memoryType)] gives a mapped
    address or fails (address 0), and [unmap(region, length)] may report an
    error (status 0 is success). *)
Record ps_io_ops_t := {
  io_map : pmem_region_t -> bool -> ps_mem_flags_t -> Z;
  io_unmap : Z -> Z -> Z
}.

(** errno.h *)
Definition EINVAL : Z := 22.
Definition ENOMEM : Z := 12.

(** Modelled from the spec: the handle structure [tx2_hsp_t] of the header
    tx2bpmp/hsp.h, which is missing: the mapped register block and the
    derived doorbell page, both byte addresses ([NULL] is 0). *)
Record tx2_hsp_t := {
  hsp_base : Z;
  doorbell_base : Z
}.

(** Modelled from the spec: [enum tx2_doorbell_id] of the missing header,
    a 0-based contiguous closed enumeration from CCPLEX_PM to APE. *)
Definition CCPLEX_PM_DBELL : Z := 0.
Definition CCPLEX_TZ_UNSECURE_DBELL : Z := 1.
Definition CCPLEX_TZ_SECURE_DBELL : Z := 2.
Definition BPMP_DBELL : Z := 3.
Definition SPE_DBELL : Z := 4.
Definition SCE_DBELL : Z := 5.
Definition APE_DBELL : Z := 6.

(** Modelled from the spec: the macro [BIT] of utils/util.h ([BIT(3)] is
    the bit value 0x8). *)
Definition BIT (n : Z) : Z := Z.shiftl 1 n.

(* ================================================================== *)
(** * The machine and its monad *)

Inductive event :=
| EvMap (r : pmem_region_t) (cached : bool) (flags : ps_mem_flags_t)
| EvUnmap (vaddr size : Z)
| EvRead (addr : Z)
| EvWrite (addr val : Z).

(** A handle pointer is [None] (NULL) or the index of a handle structure
    in [m_handles]; the handle structures live apart from the mapped
    register block [m_mem]. *)
Record machine := {
  m_handles : nat -> tx2_hsp_t;
  m_mem : mem;
  m_trace : list event
}.

Inductive outcome (A : Type) :=
| Done (a : A)
| Aborted.
Arguments Done {A} a.
Arguments Aborted {A}.

Definition M (A : Type) : Type := machine -> outcome A * machine.

Definition ret {A} (a : A) : M A := fun s => (Done a, s).

Definition bind {A B} (c : M A) (k : A -> M B) : M B :=
  fun s =>
    match c s with
    | (Done a, s') => k a s'
    | (Aborted, s') => (Aborted, s')
    end.

Notation "x <- c ;; k" := (bind c (fun x => k))
  (at level 61, c at next level, right associativity).
Notation "c ;; k" := (bind c (fun _ => k))
  (at level 61, right associativity).

Definition abort {A} : M A := fun s => (Aborted, s).

(** [assert(c)] of assert.h. *)
Definition assert (c : bool) : M unit := if c then ret tt else abort.

Definition emit (e : event) : M unit :=
  fun s => (Done tt, {| m_handles := m_handles s;
                        m_mem := m_mem s;
                        m_trace := m_trace s ++ [e] |}).

(** [*p] for [uint32_t *p]. *)
Definition read32 (a : Z) : M Z :=
  emit (EvRead a) ;;
  fun s => (Done (load32 (m_mem s) a), s).

(** [*p = v] for [uint32_t *p]. *)
Definition write32 (a v : Z) : M unit :=
  emit (EvWrite a (wrap32 v)) ;;
  fun s => (Done tt, {| m_handles := m_handles s;
                        m_mem := store32 (m_mem s) a (wrap32 v);
                        m_trace := m_trace s |}).

Definition get_handle (p : nat) : M tx2_hsp_t :=
  fun s => (Done (m_handles s p), s).

Definition set_handle (p : nat) (h : tx2_hsp_t) : M unit :=
  fun s => (Done tt, {| m_handles := fun q => if Nat.eqb q p then h
                                              else m_handles s q;
                        m_mem := m_mem s;
                        m_trace := m_trace s |}).

Definition ps_pmem_map (io : ps_io_ops_t) (r : pmem_region_t)
    (cached : bool) (flags : ps_mem_flags_t) : M Z :=
  emit (EvMap r cached flags) ;;
  ret (io_map io r cached flags).

(** The service's status is computed but the call has no result: it is a
    statement in the driver. *)
Definition ps_io_unmap (io : ps_io_ops_t) (vaddr size : Z) : M unit :=
  emit (EvUnmap vaddr size) ;;
  let _status := io_unmap io vaddr size in
  ret tt.

(* ================================================================== *)
(** * The driver *)

Definition HSP_INT_DIMENSION_OFFSET : Z := 0x380.
Definition HSP_INT_DIMENSION_SM_SHIFT : Z := 0.
Definition HSP_INT_DIMENSION_SS_SHIFT : Z := 4.
Definition HSP_INT_DIMENSION_AS_SHIFT : Z := 8.
Definition HSP_INT_DIMENSION_NUM_MASK : Z := 0xf.

Definition HSP_DOORBELL_BLOCK_STRIDE : Z := 0x100.

Definition HSP_BITMAP_TZ_SECURE_SHFIT : Z := 0.
Definition HSP_BITMAP_TZ_NONSECURE_SHIFT : Z := 16.

Inductive dbell_reg_offset :=
| DBELL_TRIGGER | DBELL_ENABLE | DBELL_RAW | DBELL_PENDING.

Definition dbell_reg_offset_val (o : dbell_reg_offset) : Z :=
  match o with
  | DBELL_TRIGGER => 0x0
  | DBELL_ENABLE => 0x4
  | DBELL_RAW => 0x8
  | DBELL_PENDING => 0xc
  end.

(** [enum dbell_bitmap_offset] *)
Definition CCPLEX_BIT : Z := BIT 1.
Definition DPMU_BIT : Z := BIT 2.
Definition BPMP_BIT : Z := BIT 3.
Definition SPE_BIT : Z := BIT 4.
Definition CPE_BIT : Z := BIT 5.
Definition SCE_BIT : Z := CPE_BIT.
Definition DMA_BIT : Z := BIT 6.
Definition TSECA_BIT : Z := BIT 7.
Definition TSECB_BIT : Z := BIT 8.
Definition JTAGM_BIT : Z := BIT 9.
Definition CSITE_BIT : Z := BIT 10.
Definition APE_BIT : Z := BIT 11.

Definition check_doorbell_id_is_valid (db_id : Z) : bool :=
  if (CCPLEX_PM_DBELL <=? db_id) && (db_id <=? APE_DBELL) then true
  else false.

(** The [switch] of [tx2_hsp_doorbell_check]; [None] is its default
    branch. *)
Definition doorbell_bitmap_offset (db_id : Z) : option Z :=
  if (db_id =? CCPLEX_PM_DBELL)
     || (db_id =? CCPLEX_TZ_UNSECURE_DBELL)
     || (db_id =? CCPLEX_TZ_SECURE_DBELL) then Some CCPLEX_BIT
  else if db_id =? BPMP_DBELL then Some BPMP_BIT
  else if db_id =? SPE_DBELL then Some SPE_BIT
  else if db_id =? SCE_DBELL then Some SCE_BIT
  else if db_id =? APE_DBELL then Some APE_BIT
  else None.

Definition tx2_hsp_get_doorbell_register (hsp : option nat) (db_id : Z)
    (offset : dbell_reg_offset) : M Z :=
  match hsp with
  | None => abort
  | Some p =>
      assert ((dbell_reg_offset_val DBELL_TRIGGER <=? dbell_reg_offset_val offset)
              && (dbell_reg_offset_val offset <=? dbell_reg_offset_val DBELL_PENDING)) ;;
      h <- get_handle p ;;
      ret (doorbell_base h + db_id * HSP_DOORBELL_BLOCK_STRIDE
           + dbell_reg_offset_val offset)
  end.

Definition tx2_hsp_doorbell_ring (hsp : option nat) (db_id : Z) : M Z :=
  match hsp with
  | None => ret (- EINVAL)
  | Some _ =>
      if negb (check_doorbell_id_is_valid db_id) then ret (- EINVAL)
      else
        trigger_reg <- tx2_hsp_get_doorbell_register hsp db_id DBELL_TRIGGER ;;
        assert (negb (trigger_reg =? 0)) ;;
        write32 trigger_reg 1 ;;
        ret 0
  end.

Definition tx2_hsp_doorbell_check (hsp : option nat) (db_id : Z) : M Z :=
  match hsp with
  | None => ret (- EINVAL)
  | Some _ =>
      if negb (check_doorbell_id_is_valid db_id) then ret (- EINVAL)
      else
        pending_reg <- tx2_hsp_get_doorbell_register hsp db_id DBELL_PENDING ;;
        bitmap_offset <- match doorbell_bitmap_offset db_id with
                         | Some b => ret b
                         | None => abort
                         end ;;
        let mask := wrap32 (Z.shiftl bitmap_offset HSP_BITMAP_TZ_NONSECURE_SHIFT) in
        v <- read32 pending_reg ;;
        let is_pending := to_int32 (Z.land v mask) in
        (if negb (is_pending =? 0)
         then v' <- read32 pending_reg ;;
              write32 pending_reg (Z.land v' (not32 mask))
         else ret tt) ;;
        ret (if negb (is_pending =? 0) then 1 else 0)
  end.

Section Platform.

(** The macros [TX2_HSP_PADDR] and [TX2_HSP_SIZE] of the missing header:
    the fixed physical base and length of the HSP block. *)
Variables TX2_HSP_PADDR TX2_HSP_SIZE : Z.

Definition tx2_hsp_region : pmem_region_t :=
  {| type := PMEM_TYPE_DEVICE;
     base_addr := TX2_HSP_PADDR;
     length := TX2_HSP_SIZE |}.

Definition tx2_hsp_init (io_ops : option ps_io_ops_t) (hsp : option nat)
    : M Z :=
  match io_ops, hsp with
  | Some io, Some p =>
      b <- ps_pmem_map io tx2_hsp_region false PS_MEM_NORMAL ;;
      h0 <- get_handle p ;;
      set_handle p {| hsp_base := b; doorbell_base := doorbell_base h0 |} ;;
      h1 <- get_handle p ;;
      if hsp_base h1 =? 0 then ret (- ENOMEM)
      else
        let int_dim_reg := hsp_base h1 + HSP_INT_DIMENSION_OFFSET in
        d1 <- read32 int_dim_reg ;;
        let num_sm := to_int32 (Z.land (Z.shiftr d1 HSP_INT_DIMENSION_SM_SHIFT)
                                       HSP_INT_DIMENSION_NUM_MASK) in
        d2 <- read32 int_dim_reg ;;
        let num_ss := to_int32 (Z.land (Z.shiftr d2 HSP_INT_DIMENSION_SS_SHIFT)
                                       HSP_INT_DIMENSION_NUM_MASK) in
        d3 <- read32 int_dim_reg ;;
        let num_as := to_int32 (Z.land (Z.shiftr d3 HSP_INT_DIMENSION_AS_SHIFT)
                                       HSP_INT_DIMENSION_NUM_MASK) in
        h2 <- get_handle p ;;
        set_handle p
          {| hsp_base := hsp_base h2;
             doorbell_base :=
               hsp_base h2
               + (1 + Z.quot num_sm 2 + num_ss + num_as) * 0x10000 |} ;;
        ret 0
  | _, _ => ret (- EINVAL)
  end.

Definition tx2_hsp_destroy (io_ops : option ps_io_ops_t) (hsp : option nat)
    : M Z :=
  match io_ops, hsp with
  | Some io, Some p =>
      h <- get_handle p ;;
      (if negb (hsp_base h =? 0)
       then ps_io_unmap io (hsp_base h) (length tx2_hsp_region)
       else ret tt) ;;
      ret 0
  | _, _ => ret (- EINVAL)
  end.

End Platform.

(* ================================================================== *)
(** * A simulated register backing store

    Used to run the driver on concrete inputs: the mapper hands out the
    block at 0x1000 and its unmap operation reports an error; the
    dimension register holds numSM = 4, numSS = 2, numAS = 1; the pending
    register of the BPMP doorbell holds 0x80000. *)

Definition sim_io : ps_io_ops_t :=
  {| io_map := fun _ _ _ => 0x1000;
     io_unmap := fun _ _ => -1 |}.

Definition sim_mem : mem :=
  fun a =>
    if a =? 0x1380 then 0x24
    else if a =? 0x1381 then 0x01
    else if a =? 0x6130e then 0x08
    else 0.

Definition sim_fresh : machine :=
  {| m_handles := fun _ => {| hsp_base := 0; doorbell_base := 0 |};
     m_mem := sim_mem;
     m_trace := [] |}.

Definition sim_ready : machine :=
  {| m_handles := fun _ => {| hsp_base := 0x1000; doorbell_base := 0x61000 |};
     m_mem := sim_mem;
     m_trace := [] |}.

(* ================================================================== *)
(** * Facts about machine integers and memory *)

Lemma wrap32_range (x : Z) : 0 <= wrap32 x < 2 ^ 32.
Proof. unfold wrap32. apply Z.mod_pos_bound. lia. Qed.

Lemma wrap32_small (x : Z) : 0 <= x < 2 ^ 32 -> wrap32 x = x.
Proof. intros H. unfold wrap32. apply Z.mod_small. exact H. Qed.

Lemma to_int32_small (x : Z) : 0 <= x < 2 ^ 31 -> to_int32 x = x.
Proof.
  intros H. unfold to_int32. rewrite wrap32_small by lia.
  destruct (Z.ltb_spec x (2 ^ 31)); lia.
Qed.

Lemma byte_at_range (m : mem) (a : Z) : 0 <= byte_at m a < 256.
Proof. unfold byte_at. apply Z.mod_pos_bound. lia. Qed.

Lemma load32_range (m : mem) (a : Z) : 0 <= load32 m a < 2 ^ 32.
Proof.
  unfold load32.
  pose proof (byte_at_range m a).
  pose proof (byte_at_range m (a + 1)).
  pose proof (byte_at_range m (a + 2)).
  pose proof (byte_at_range m (a + 3)).
  lia.
Qed.

Lemma store32_outside (m : mem) (a v x : Z) :
  x < a \/ a + 3 < x -> store32 m a v x = m x.
Proof.
  intros H. unfold store32.
  destruct (Z.eqb_spec x a); [lia|].
  destruct (Z.eqb_spec x (a + 1)); [lia|].
  destruct (Z.eqb_spec x (a + 2)); [lia|].
  destruct (Z.eqb_spec x (a + 3)); [lia|].
  reflexivity.
Qed.

Lemma load32_store32_same (m : mem) (a v : Z) :
  load32 (store32 m a v) a = wrap32 v.
Proof.
  unfold load32, byte_at, store32, wrap32.
  rewrite Z.eqb_refl.
  destruct (Z.eqb_spec (a + 1) a); [lia|].
  destruct (Z.eqb_spec (a + 2) a); [lia|].
  destruct (Z.eqb_spec (a + 3) a); [lia|].
  rewrite Z.eqb_refl.
  destruct (Z.eqb_spec (a + 2) (a + 1)); [lia|].
  destruct (Z.eqb_spec (a + 3) (a + 1)); [lia|].
  rewrite Z.eqb_refl.
  destruct (Z.eqb_spec (a + 3) (a + 2)); [lia|].
  rewrite Z.eqb_refl.
  rewrite !Z.mod_mod by lia.
  change (2 ^ 8) with 256. change (2 ^ 16) with 65536.
  change (2 ^ 24) with 16777216. change (2 ^ 32) with 4294967296.
  Z.div_mod_to_equations. lia.
Qed.


Lemma land_single_bit (v n : Z) :
  0 <= n -> Z.land v (2 ^ n) = if Z.testbit v n then 2 ^ n else 0.
Proof.
  intros Hn. apply Z.bits_inj'. intros i Hi.
  rewrite Z.land_spec, Z.pow2_bits_eqb by lia.
  destruct (Z.eqb_spec n i).
  - subst i. destruct (Z.testbit v n).
    + rewrite Z.pow2_bits_true by lia. reflexivity.
    + rewrite Z.bits_0. reflexivity.
  - rewrite andb_false_r. destruct (Z.testbit v n).
    + rewrite Z.pow2_bits_false by lia. reflexivity.
    + rewrite Z.bits_0. reflexivity.
Qed.

(** Testing and clearing one bit of a 32-bit value, as the driver writes
    it: [v & mask] converted to [int], and [v & ~mask]. *)
Lemma test_bit32 (v n : Z) :
  0 <= n < 31 ->
  (to_int32 (Z.land v (2 ^ n)) =? 0) = negb (Z.testbit v n).
Proof.
  intros Hn. rewrite land_single_bit by lia.
  assert (0 < 2 ^ n < 2 ^ 31).
  { split; [apply Z.pow_pos_nonneg; lia|apply Z.pow_lt_mono_r; lia]. }
  destruct (Z.testbit v n); simpl negb.
  - rewrite to_int32_small by lia. apply Z.eqb_neq. lia.
  - reflexivity.
Qed.

Lemma testbit_high32 (v i : Z) :
  0 <= v < 2 ^ 32 -> 32 <= i -> Z.testbit v i = false.
Proof.
  intros Hv Hi.
  destruct (Z.eq_dec v 0) as [->|Hz]; [apply Z.bits_0|].
  apply Z.bits_above_log2; [lia|].
  apply Z.lt_le_trans with 32; [|lia].
  apply Z.log2_lt_pow2; lia.
Qed.

Lemma clear_bit32 (v n : Z) :
  0 <= v < 2 ^ 32 -> 0 <= n ->
  wrap32 (Z.land v (not32 (2 ^ n))) = Z.clearbit v n.
Proof.
  intros Hv Hn.
  apply Z.bits_inj'. intros i Hi.
  rewrite Z.clearbit_eqb. unfold not32, wrap32.
  destruct (Z.ltb_spec i 32).
  - rewrite Z.mod_pow2_bits_low by lia.
    rewrite Z.land_spec, Z.mod_pow2_bits_low by lia.
    rewrite Z.lnot_spec, Z.pow2_bits_eqb by lia. reflexivity.
  - rewrite Z.mod_pow2_bits_high by lia.
    rewrite testbit_high32 by lia. reflexivity.
Qed.

Lemma wrap32_clearbit (v n : Z) :
  0 <= v < 2 ^ 32 -> wrap32 (Z.clearbit v n) = Z.clearbit v n.
Proof.
  intros Hv. apply Z.bits_inj'. intros i Hi. unfold wrap32.
  destruct (Z.ltb_spec i 32).
  - apply Z.mod_pow2_bits_low. lia.
  - rewrite Z.mod_pow2_bits_high by lia.
    rewrite Z.clearbit_eqb, testbit_high32 by lia. reflexivity.
Qed.


(* ================================================================== *)
(** * Running the doorbell check *)

Lemma valid_id_range (db_id : Z) :
  check_doorbell_id_is_valid db_id = true <-> 0 <= db_id <= 6.
Proof.
  unfold check_doorbell_id_is_valid, CCPLEX_PM_DBELL, APE_DBELL.
  destruct (Z.leb_spec 0 db_id); destruct (Z.leb_spec db_id 6);
    simpl; split; intros; try lia; try discriminate; reflexivity.
Qed.

Lemma valid_id_bitmap (db_id : Z) :
  check_doorbell_id_is_valid db_id = true ->
  exists k, 1 <= k <= 11 /\ doorbell_bitmap_offset db_id = Some (2 ^ k).
Proof.
  intros H. apply valid_id_range in H.
  assert (C : db_id = 0 \/ db_id = 1 \/ db_id = 2 \/ db_id = 3
              \/ db_id = 4 \/ db_id = 5 \/ db_id = 6) by lia.
  destruct C as [->|[->|[->|[->|[->|[->| ->]]]]]].
  - exists 1. split; [lia|reflexivity].
  - exists 1. split; [lia|reflexivity].
  - exists 1. split; [lia|reflexivity].
  - exists 3. split; [lia|reflexivity].
  - exists 4. split; [lia|reflexivity].
  - exists 5. split; [lia|reflexivity].
  - exists 11. split; [lia|reflexivity].
Qed.

Lemma nonsecure_mask (k : Z) :
  1 <= k <= 11 ->
  wrap32 (Z.shiftl (2 ^ k) HSP_BITMAP_TZ_NONSECURE_SHIFT) = 2 ^ (k + 16).
Proof.
  intros Hk. unfold HSP_BITMAP_TZ_NONSECURE_SHIFT.
  rewrite Z.shiftl_mul_pow2, <- Z.pow_add_r by lia.
  apply wrap32_small. split.
  - apply Z.pow_nonneg. lia.
  - apply Z.pow_lt_mono_r; lia.
Qed.

Lemma get_doorbell_register_run (p : nat) (db_id : Z)
    (o : dbell_reg_offset) (m : machine) :
  tx2_hsp_get_doorbell_register (Some p) db_id o m =
  (Done (doorbell_base (m_handles m p) + db_id * 0x100
         + dbell_reg_offset_val o), m).
Proof. destruct o; reflexivity. Qed.

Ltac run_monad :=
  cbv beta iota zeta delta
    [bind ret abort assert emit read32 write32 get_handle set_handle
     ps_pmem_map ps_io_unmap m_handles m_mem m_trace].

Lemma check_run (p : nat) (db_id k : Z) (m : machine) :
  check_doorbell_id_is_valid db_id = true ->
  1 <= k <= 11 ->
  doorbell_bitmap_offset db_id = Some (2 ^ k) ->
  let a := doorbell_base (m_handles m p) + db_id * 0x100 + 0xc in
  let v := load32 (m_mem m) a in
  tx2_hsp_doorbell_check (Some p) db_id m =
  if Z.testbit v (k + 16)
  then (Done 1,
        {| m_handles := m_handles m;
           m_mem := store32 (m_mem m) a (Z.clearbit v (k + 16));
           m_trace := m_trace m
                      ++ [EvRead a; EvRead a; EvWrite a (Z.clearbit v (k + 16))] |})
  else (Done 0,
        {| m_handles := m_handles m;
           m_mem := m_mem m;
           m_trace := m_trace m ++ [EvRead a] |}).
Proof.
  intros Hv Hk Hb a v. destruct m as [hs mm tr].
  subst a v. cbn [m_handles m_mem m_trace].
  set (a := doorbell_base (hs p) + db_id * 256 + 12).
  set (v := load32 mm a).
  unfold tx2_hsp_doorbell_check. rewrite Hv.
  change (negb true) with false. cbv iota.
  cbv beta iota delta [bind]. rewrite get_doorbell_register_run, Hb.
  run_monad. change (dbell_reg_offset_val DBELL_PENDING) with 12.
  fold a. fold v. rewrite nonsecure_mask by lia.
  rewrite test_bit32 by lia. rewrite Bool.negb_involutive.
  destruct (Z.testbit v (k + 16)); run_monad.
  - rewrite clear_bit32 by (try apply load32_range; lia).
    rewrite <- !app_assoc. reflexivity.
  - reflexivity.
Qed.

(* ================================================================== *)
(** * Running initialisation and teardown *)

Lemma field4_arith (d s : Z) :
  0 <= d < 2 ^ 32 -> 0 <= s ->
  to_int32 (Z.land (Z.shiftr d s) HSP_INT_DIMENSION_NUM_MASK)
  = (d / 2 ^ s) mod 16.
Proof.
  intros Hd Hs. unfold HSP_INT_DIMENSION_NUM_MASK.
  change 15 with (Z.ones 4).
  rewrite Z.land_ones, Z.shiftr_div_pow2 by lia.
  change (2 ^ 4) with 16.
  apply to_int32_small.
  pose proof (Z.mod_pos_bound (d / 2 ^ s) 16). lia.
Qed.

(** [(d / 2^s) mod 2^4] is the field of the four bits of [d] from bit
    [s] on. *)
Lemma field4_bits (d s i : Z) :
  0 <= s -> 0 <= i < 4 ->
  Z.testbit ((d / 2 ^ s) mod 2 ^ 4) i = Z.testbit d (s + i).
Proof.
  intros Hs Hi.
  rewrite Z.mod_pow2_bits_low by lia.
  rewrite <- Z.shiftr_div_pow2 by lia.
  rewrite Z.shiftr_spec by lia. f_equal. lia.
Qed.

(** The doorbell page offset computed in [int] arithmetic never leaves the
    range of [int]. *)
Lemma doorbell_offset_fits_int (sm ss as_ : Z) :
  0 <= sm < 16 -> 0 <= ss < 16 -> 0 <= as_ < 16 ->
  to_int32 ((1 + Z.quot sm 2 + ss + as_) * 0x10000)
  = (1 + sm / 2 + ss + as_) * 0x10000.
Proof.
  intros H1 H2 H3. rewrite Z.quot_div_nonneg by lia.
  apply to_int32_small.
  assert (0 <= sm / 2 < 8) by (split; [apply Z.div_pos|apply Z.div_lt_upper_bound]; lia).
  lia.
Qed.

Lemma init_run (paddr size : Z) (io : ps_io_ops_t) (p : nat) (m : machine) :
  let region := {| type := PMEM_TYPE_DEVICE; base_addr := paddr; length := size |} in
  let b := io_map io region false PS_MEM_NORMAL in
  let d := load32 (m_mem m) (b + 0x380) in
  let r := tx2_hsp_init paddr size (Some io) (Some p) m in
  m_mem (snd r) = m_mem m /\
  hsp_base (m_handles (snd r) p) = b /\
  (forall q, q <> p -> m_handles (snd r) q = m_handles m q) /\
  if b =? 0
  then fst r = Done (- ENOMEM) /\
       m_trace (snd r) = m_trace m ++ [EvMap region false PS_MEM_NORMAL]
  else fst r = Done 0 /\
       m_trace (snd r) = m_trace m ++ [EvMap region false PS_MEM_NORMAL;
                                       EvRead (b + 0x380); EvRead (b + 0x380);
                                       EvRead (b + 0x380)] /\
       doorbell_base (m_handles (snd r) p)
       = b + (1 + ((d / 2 ^ 0) mod 16) / 2 + (d / 2 ^ 4) mod 16
              + (d / 2 ^ 8) mod 16) * 0x10000.
Proof.
  intros region b d r. subst r. destruct m as [hs mm tr].
  unfold tx2_hsp_init, tx2_hsp_region. fold region.
  run_monad. fold b. rewrite Nat.eqb_refl. cbn [hsp_base doorbell_base].
  destruct (Z.eqb_spec b 0) as [E|E]; cbn [fst snd m_handles m_mem m_trace].
  - rewrite Nat.eqb_refl. cbn [hsp_base].
    repeat split; try reflexivity.
    intros q Hq. apply Nat.eqb_neq in Hq. rewrite Hq. reflexivity.
  - rewrite Nat.eqb_refl. cbn [hsp_base doorbell_base].
    repeat split; try reflexivity.
    + intros q Hq. apply Nat.eqb_neq in Hq. rewrite Hq. reflexivity.
    + rewrite <- !app_assoc. reflexivity.
    + unfold HSP_INT_DIMENSION_OFFSET, HSP_INT_DIMENSION_SM_SHIFT,
        HSP_INT_DIMENSION_SS_SHIFT, HSP_INT_DIMENSION_AS_SHIFT.
      fold d. pose proof (load32_range mm (b + 896)) as Hd. fold d in Hd.
      rewrite !field4_arith by lia.
      rewrite Z.quot_div_nonneg; [reflexivity| |lia].
      apply Z.mod_pos_bound. lia.
Qed.

Lemma destroy_run (paddr size : Z) (io : ps_io_ops_t) (p : nat) (m : machine) :
  tx2_hsp_destroy paddr size (Some io) (Some p) m =
  (Done 0,
   {| m_handles := m_handles m;
      m_mem := m_mem m;
      m_trace := m_trace m
                 ++ (if hsp_base (m_handles m p) =? 0 then []
                     else [EvUnmap (hsp_base (m_handles m p)) size]) |}).
Proof.
  destruct m as [hs mm tr]. unfold tx2_hsp_destroy, tx2_hsp_region.
  run_monad. cbn [length].
  destruct (hsp_base (hs p) =? 0); cbn [negb]; run_monad.
  - rewrite app_nil_r. reflexivity.
  - reflexivity.
Qed.

Lemma ring_run (p : nat) (db_id : Z) (m : machine) :
  check_doorbell_id_is_valid db_id = true ->
  let a := doorbell_base (m_handles m p) + db_id * 0x100 + 0x0 in
  tx2_hsp_doorbell_ring (Some p) db_id m =
  if a =? 0 then (Aborted, m)
  else (Done 0,
        {| m_handles := m_handles m;
           m_mem := store32 (m_mem m) a 1;
           m_trace := m_trace m ++ [EvWrite a 1] |}).
Proof.
  intros Hv a. unfold tx2_hsp_doorbell_ring. rewrite Hv.
  change (negb true) with false. cbv iota.
  cbv beta iota delta [bind]. rewrite get_doorbell_register_run.
  change (dbell_reg_offset_val DBELL_TRIGGER) with 0. fold a.
  destruct m as [hs mm tr].
  destruct (a =? 0); cbn [negb]; run_monad; reflexivity.
Qed.

(** A handle filled by a successful initialisation at a positive mapped
    address has a non-null trigger register pointer for every valid
    doorbell. *)
Lemma init_trigger_nonnull
    (paddr size : Z) (io : ps_io_ops_t) (p : nat) (m : machine) (db_id : Z) :
  0 < io_map io (tx2_hsp_region paddr size) false PS_MEM_NORMAL ->
  check_doorbell_id_is_valid db_id = true ->
  let m' := snd (tx2_hsp_init paddr size (Some io) (Some p) m) in
  doorbell_base (m_handles m' p) + db_id * 0x100 + 0x0 <> 0.
Proof.
  intros Hb Hv m'. apply valid_id_range in Hv.
  destruct (init_run paddr size io p m) as (_ & _ & _ & Hr).
  fold (tx2_hsp_region paddr size) in Hr.
  set (b := io_map io (tx2_hsp_region paddr size) false PS_MEM_NORMAL) in *.
  fold m' in Hr.
  destruct (Z.eqb_spec b 0) as [E|_]; [lia|].
  destruct Hr as (_ & _ & Hdb). rewrite Hdb.
  set (d := load32 (m_mem m) (b + 896)).
  pose proof (Z.mod_pos_bound (d / 2 ^ 0) 16 ltac:(lia)).
  pose proof (Z.mod_pos_bound (d / 2 ^ 4) 16 ltac:(lia)).
  pose proof (Z.mod_pos_bound (d / 2 ^ 8) 16 ltac:(lia)).
  assert (0 <= (d / 2 ^ 0) mod 16 / 2) by (apply Z.div_pos; lia).
  lia.
Qed.

(* ================================================================== *)
(** * Properties of the driver *)

Example init_on_sim :
  let r := tx2_hsp_init 0x3c00000 0xa0000 (Some sim_io) (Some 0%nat) sim_fresh in
  fst r = Done 0 /\ m_handles (snd r) 0%nat = m_handles sim_ready 0%nat.
Proof. vm_compute. split; reflexivity. Qed.

Example check_bpmp_on_sim :
  let r := tx2_hsp_doorbell_check (Some 0%nat) BPMP_DBELL sim_ready in
  fst r = Done 1 /\ load32 (m_mem (snd r)) 0x6130c = 0.
Proof. vm_compute. split; reflexivity. Qed.

(** C1: a successful [tx2_hsp_init] decodes numSM, numSS and numAS as the
    4-bit fields at bit offsets 0, 4 and 8 of the 32-bit value read at
    offset 0x380 of the mapped block, and stores
    [doorbell_base = hsp_base + (1 + numSM/2 + numSS + numAS) * 0x10000];
    for numSM = 4, numSS = 2, numAS = 1 the offset is 0x60000. *)
Theorem init_computes_doorbell_base
    (paddr size : Z) (io : ps_io_ops_t) (p : nat) (m : machine) :
  let b := io_map io (tx2_hsp_region paddr size) false PS_MEM_NORMAL in
  let d := load32 (m_mem m) (b + 0x380) in
  let numSM := (d / 2 ^ 0) mod 2 ^ 4 in
  let numSS := (d / 2 ^ 4) mod 2 ^ 4 in
  let numAS := (d / 2 ^ 8) mod 2 ^ 4 in
  b <> 0 ->
  let r := tx2_hsp_init paddr size (Some io) (Some p) m in
  fst r = Done 0 /\
  hsp_base (m_handles (snd r) p) = b /\
  doorbell_base (m_handles (snd r) p)
  = b + (1 + numSM / 2 + numSS + numAS) * 0x10000 /\
  (numSM = 4 -> numSS = 2 -> numAS = 1 ->
   doorbell_base (m_handles (snd r) p) - hsp_base (m_handles (snd r) p)
   = 0x60000).
Proof.
  intros b d numSM numSS numAS Hb r.
  destruct (init_run paddr size io p m) as (_ & Hbase & _ & Hr).
  fold (tx2_hsp_region paddr size) in Hbase, Hr. fold b in Hbase, Hr.
  fold r in Hbase, Hr.
  destruct (Z.eqb_spec b 0) as [E|_]; [contradiction|].
  destruct Hr as (Hret & _ & Hdb). fold d in Hdb.
  change (2 ^ 4) with 16 in *. fold numSM numSS numAS in Hdb.
  repeat split; try assumption.
  intros H1 H2 H3. rewrite Hdb, Hbase, H1, H2, H3.
  change (4 / 2) with 2. lia.
Qed.

Lemma init_computes_doorbell_base_witness :
  let r := tx2_hsp_init 0x3c00000 0xa0000 (Some sim_io) (Some 0%nat) sim_fresh in
  doorbell_base (m_handles (snd r) 0%nat) - hsp_base (m_handles (snd r) 0%nat)
  = 0x60000.
Proof.
  assert (Hb : io_map sim_io (tx2_hsp_region 0x3c00000 0xa0000) false
                 PS_MEM_NORMAL <> 0) by (vm_compute; discriminate).
  destruct (init_computes_doorbell_base 0x3c00000 0xa0000 sim_io 0%nat
              sim_fresh Hb) as (_ & _ & _ & H).
  apply H; vm_compute; reflexivity.
Defined.

Lemma check_behaviour_at_bit (p : nat) (db_id k : Z) (m : machine) :
  check_doorbell_id_is_valid db_id = true ->
  1 <= k <= 11 ->
  doorbell_bitmap_offset db_id = Some (2 ^ k) ->
  let a := doorbell_base (m_handles m p) + db_id * 0x100 + 0xc in
  let v := load32 (m_mem m) a in
  (Z.land v (2 ^ (k + 16)) <> 0 <-> Z.testbit v (k + 16) = true) /\
  (Z.land v (2 ^ (k + 16)) <> 0 ->
   tx2_hsp_doorbell_check (Some p) db_id m =
   (Done 1,
    {| m_handles := m_handles m;
       m_mem := store32 (m_mem m) a (Z.clearbit v (k + 16));
       m_trace := m_trace m
                  ++ [EvRead a; EvRead a; EvWrite a (Z.clearbit v (k + 16))] |})
   /\ load32 (store32 (m_mem m) a (Z.clearbit v (k + 16))) a
      = Z.clearbit v (k + 16)) /\
  (Z.land v (2 ^ (k + 16)) = 0 ->
   tx2_hsp_doorbell_check (Some p) db_id m =
   (Done 0,
    {| m_handles := m_handles m;
       m_mem := m_mem m;
       m_trace := m_trace m ++ [EvRead a] |})).
Proof.
  intros Hv Hk Hb a v.
  pose proof (check_run p db_id k m Hv Hk Hb) as Hrun.
  cbv zeta in Hrun. fold a in Hrun. fold v in Hrun.
  assert (Hr : 0 <= v < 2 ^ 32) by apply load32_range.
  assert (Hp : 0 < 2 ^ (k + 16)) by (apply Z.pow_pos_nonneg; lia).
  rewrite land_single_bit by lia.
  destruct (Z.testbit v (k + 16)).
  - split; [split; [reflexivity|lia]|]. split; [|lia].
    intros _. split; [exact Hrun|].
    rewrite load32_store32_same. apply wrap32_clearbit. exact Hr.
  - split; [split; [lia|discriminate]|]. split; [lia|].
    intros _. exact Hrun.
Qed.

(** C2: for a valid doorbell id, [tx2_hsp_doorbell_check] reads the
    PENDING register at offset 0xc of the window
    [doorbell_base + db_id * 0x100] and tests the single bit
    [bit << 16], where [bit] is the doorbell bit the switch assigns to
    the id: CCPLEX_BIT (register bit 17) for the three CCPLEX ids,
    BPMP_BIT (bit 19), SPE_BIT (bit 20), SCE_BIT (bit 21) and APE_BIT
    (bit 27).  When that bit is set the register is written back with
    exactly that bit cleared and the result is 1 (true); otherwise
    nothing is written and the result is 0 (false). *)
Theorem check_tests_and_clears_pending (p : nat) (db_id : Z) (m : machine) :
  check_doorbell_id_is_valid db_id = true ->
  exists bit n,
    In (db_id, bit, n)
       [(CCPLEX_PM_DBELL, CCPLEX_BIT, 17);
        (CCPLEX_TZ_UNSECURE_DBELL, CCPLEX_BIT, 17);
        (CCPLEX_TZ_SECURE_DBELL, CCPLEX_BIT, 17);
        (BPMP_DBELL, BPMP_BIT, 19);
        (SPE_DBELL, SPE_BIT, 20);
        (SCE_DBELL, SCE_BIT, 21);
        (APE_DBELL, APE_BIT, 27)] /\
    doorbell_bitmap_offset db_id = Some bit /\
    Z.shiftl bit HSP_BITMAP_TZ_NONSECURE_SHIFT = 2 ^ n /\
    let a := doorbell_base (m_handles m p) + db_id * 0x100 + 0xc in
    let v := load32 (m_mem m) a in
    (Z.land v (Z.shiftl bit HSP_BITMAP_TZ_NONSECURE_SHIFT) <> 0 <->
     Z.testbit v n = true) /\
    (Z.land v (Z.shiftl bit HSP_BITMAP_TZ_NONSECURE_SHIFT) <> 0 ->
     tx2_hsp_doorbell_check (Some p) db_id m =
     (Done 1,
      {| m_handles := m_handles m;
         m_mem := store32 (m_mem m) a (Z.clearbit v n);
         m_trace := m_trace m
                    ++ [EvRead a; EvRead a; EvWrite a (Z.clearbit v n)] |})
     /\ load32 (store32 (m_mem m) a (Z.clearbit v n)) a = Z.clearbit v n) /\
    (Z.land v (Z.shiftl bit HSP_BITMAP_TZ_NONSECURE_SHIFT) = 0 ->
     tx2_hsp_doorbell_check (Some p) db_id m =
     (Done 0,
      {| m_handles := m_handles m;
         m_mem := m_mem m;
         m_trace := m_trace m ++ [EvRead a] |})).
Proof.
  intros Hv. pose proof (proj1 (valid_id_range db_id) Hv) as Hr.
  assert (C : db_id = 0 \/ db_id = 1 \/ db_id = 2 \/ db_id = 3
              \/ db_id = 4 \/ db_id = 5 \/ db_id = 6) by lia.
  assert (K : forall bit n k,
             1 <= k <= 11 -> bit = 2 ^ k -> n = k + 16 ->
             doorbell_bitmap_offset db_id = Some bit ->
             doorbell_bitmap_offset db_id = Some bit /\
             Z.shiftl bit HSP_BITMAP_TZ_NONSECURE_SHIFT = 2 ^ n /\
             let a := doorbell_base (m_handles m p) + db_id * 0x100 + 0xc in
             let v := load32 (m_mem m) a in
             (Z.land v (Z.shiftl bit HSP_BITMAP_TZ_NONSECURE_SHIFT) <> 0 <->
              Z.testbit v n = true) /\
             (Z.land v (Z.shiftl bit HSP_BITMAP_TZ_NONSECURE_SHIFT) <> 0 ->
              tx2_hsp_doorbell_check (Some p) db_id m =
              (Done 1,
               {| m_handles := m_handles m;
                  m_mem := store32 (m_mem m) a (Z.clearbit v n);
                  m_trace := m_trace m
                             ++ [EvRead a; EvRead a;
                                 EvWrite a (Z.clearbit v n)] |})
              /\ load32 (store32 (m_mem m) a (Z.clearbit v n)) a
                 = Z.clearbit v n) /\
             (Z.land v (Z.shiftl bit HSP_BITMAP_TZ_NONSECURE_SHIFT) = 0 ->
              tx2_hsp_doorbell_check (Some p) db_id m =
              (Done 0,
               {| m_handles := m_handles m;
                  m_mem := m_mem m;
                  m_trace := m_trace m ++ [EvRead a] |}))).
  { intros bit n k Hk -> -> Hb. split; [exact Hb|].
    assert (Hm : Z.shiftl (2 ^ k) HSP_BITMAP_TZ_NONSECURE_SHIFT = 2 ^ (k + 16)).
    { unfold HSP_BITMAP_TZ_NONSECURE_SHIFT.
      rewrite Z.shiftl_mul_pow2, <- Z.pow_add_r by lia. reflexivity. }
    split; [exact Hm|]. rewrite Hm.
    exact (check_behaviour_at_bit p db_id k m Hv Hk Hb). }
  destruct C as [E|[E|[E|[E|[E|[E|E]]]]]]; rewrite E in K |- *.
  - exists CCPLEX_BIT, 17. split; [left; reflexivity|].
    apply (K CCPLEX_BIT 17 1); [lia|reflexivity|reflexivity|reflexivity].
  - exists CCPLEX_BIT, 17. split; [right; left; reflexivity|].
    apply (K CCPLEX_BIT 17 1); [lia|reflexivity|reflexivity|reflexivity].
  - exists CCPLEX_BIT, 17. split; [do 2 right; left; reflexivity|].
    apply (K CCPLEX_BIT 17 1); [lia|reflexivity|reflexivity|reflexivity].
  - exists BPMP_BIT, 19. split; [do 3 right; left; reflexivity|].
    apply (K BPMP_BIT 19 3); [lia|reflexivity|reflexivity|reflexivity].
  - exists SPE_BIT, 20. split; [do 4 right; left; reflexivity|].
    apply (K SPE_BIT 20 4); [lia|reflexivity|reflexivity|reflexivity].
  - exists SCE_BIT, 21. split; [do 5 right; left; reflexivity|].
    apply (K SCE_BIT 21 5); [lia|reflexivity|reflexivity|reflexivity].
  - exists APE_BIT, 27. split; [do 6 right; left; reflexivity|].
    apply (K APE_BIT 27 11); [lia|reflexivity|reflexivity|reflexivity].
Qed.

Lemma check_tests_and_clears_pending_witness :
  tx2_hsp_doorbell_check (Some 0%nat) BPMP_DBELL sim_ready =
  (Done 1,
   {| m_handles := m_handles sim_ready;
      m_mem := store32 (m_mem sim_ready) 0x6130c
                 (Z.clearbit (load32 (m_mem sim_ready) 0x6130c) 19);
      m_trace := [EvRead 0x6130c; EvRead 0x6130c; EvWrite 0x6130c 0] |}).
Proof.
  destruct (check_tests_and_clears_pending 0%nat BPMP_DBELL sim_ready eq_refl)
    as (bit & n & Hin & _ & _ & _ & Hset & _).
  cbn [In] in Hin.
  destruct Hin as [H|[H|[H|[H|[H|[H|[H|[]]]]]]]];
    vm_compute in H; try discriminate H.
  injection H as <- <-.
  destruct Hset as [E _]; [vm_compute; discriminate|].
  exact E.
Defined.

(** C3: for a valid doorbell id, on a handle whose trigger register
    pointer is not null (the function asserts it),
    [tx2_hsp_doorbell_ring] writes the value 1 to the trigger register at
    [doorbell_base + db_id * 0x100 + 0x0] and to no other address: that
    write is its only access, the register then reads 1, and every byte
    outside the register keeps its value. *)
Theorem ring_writes_only_trigger (p : nat) (db_id : Z) (m : machine) :
  check_doorbell_id_is_valid db_id = true ->
  let a := doorbell_base (m_handles m p) + db_id * 0x100 + 0x0 in
  a <> 0 ->
  let r := tx2_hsp_doorbell_ring (Some p) db_id m in
  fst r = Done 0 /\
  m_trace (snd r) = m_trace m ++ [EvWrite a 1] /\
  load32 (m_mem (snd r)) a = 1 /\
  (forall x, x < a \/ a + 3 < x -> m_mem (snd r) x = m_mem m x).
Proof.
  intros Hv a Ha r. subst r. rewrite (ring_run p db_id m Hv). fold a.
  destruct (Z.eqb_spec a 0) as [E|_]; [contradiction|].
  cbn [fst snd m_trace m_mem].
  repeat split.
  - rewrite load32_store32_same. reflexivity.
  - intros x Hx. apply store32_outside. exact Hx.
Qed.

Lemma ring_writes_only_trigger_witness :
  let m := snd (tx2_hsp_init 0x3c00000 0xa0000 (Some sim_io) (Some 0%nat)
                  sim_fresh) in
  let a := doorbell_base (m_handles m 0%nat) + BPMP_DBELL * 0x100 + 0x0 in
  let r := tx2_hsp_doorbell_ring (Some 0%nat) BPMP_DBELL m in
  fst r = Done 0 /\
  m_trace (snd r) = m_trace m ++ [EvWrite a 1] /\
  load32 (m_mem (snd r)) a = 1 /\
  (forall x, x < a \/ a + 3 < x -> m_mem (snd r) x = m_mem m x).
Proof.
  apply (ring_writes_only_trigger 0%nat BPMP_DBELL
           (snd (tx2_hsp_init 0x3c00000 0xa0000 (Some sim_io) (Some 0%nat)
                   sim_fresh))).
  - vm_compute. reflexivity.
  - vm_compute. discriminate.
Defined.

Lemma check_result_valid (hsp : option nat) (db_id : Z) (m : machine) :
  fst (tx2_hsp_doorbell_check hsp db_id m) = Done 1 ->
  exists p, hsp = Some p /\ check_doorbell_id_is_valid db_id = true.
Proof.
  destruct hsp as [p|]; [|discriminate].
  intros H. exists p. split; [reflexivity|].
  destruct (check_doorbell_id_is_valid db_id) eqn:E; [reflexivity|].
  unfold tx2_hsp_doorbell_check in H. rewrite E in H. discriminate.
Qed.

(** C4: whenever [tx2_hsp_doorbell_check] returns 1 (true), a second check
    of the same doorbell on the machine the first one left, with no other
    change to the registers, returns 0 (false). *)
Theorem check_clears_pending (hsp : option nat) (db_id : Z) (m : machine) :
  fst (tx2_hsp_doorbell_check hsp db_id m) = Done 1 ->
  fst (tx2_hsp_doorbell_check hsp db_id
         (snd (tx2_hsp_doorbell_check hsp db_id m))) = Done 0.
Proof.
  intros H. destruct (check_result_valid _ _ _ H) as (p & -> & Hv).
  destruct (valid_id_bitmap db_id Hv) as (k & Hk & Hb).
  pose proof (check_run p db_id k m Hv Hk Hb) as Hrun. cbv zeta in Hrun.
  rewrite Hrun in H |- *.
  set (a := doorbell_base (m_handles m p) + db_id * 256 + 12) in *.
  set (v := load32 (m_mem m) a) in *.
  destruct (Z.testbit v (k + 16)); [|discriminate].
  cbn [snd].
  rewrite (check_run p db_id k _ Hv Hk Hb). cbn [m_handles m_mem]. fold a.
  rewrite load32_store32_same.
  rewrite wrap32_clearbit by apply load32_range.
  rewrite Z.clearbit_eq. reflexivity.
Qed.

Lemma check_clears_pending_witness :
  fst (tx2_hsp_doorbell_check (Some 0%nat) BPMP_DBELL
         (snd (tx2_hsp_doorbell_check (Some 0%nat) BPMP_DBELL sim_ready)))
  = Done 0.
Proof.
  apply (check_clears_pending (Some 0%nat) BPMP_DBELL sim_ready).
  vm_compute. reflexivity.
Defined.

(** C5: a doorbell id below CCPLEX_PM_DBELL or above APE_DBELL makes both
    [tx2_hsp_doorbell_ring] and [tx2_hsp_doorbell_check] return -EINVAL
    and leave the machine as it was, trace included: no register is read
    or written.  A null handle does the same, whatever the id. *)
Theorem invalid_arguments_rejected (db_id : Z) (m : machine) :
  (db_id < CCPLEX_PM_DBELL \/ APE_DBELL < db_id ->
   forall hsp,
     tx2_hsp_doorbell_ring hsp db_id m = (Done (- EINVAL), m) /\
     tx2_hsp_doorbell_check hsp db_id m = (Done (- EINVAL), m)) /\
  tx2_hsp_doorbell_ring None db_id m = (Done (- EINVAL), m) /\
  tx2_hsp_doorbell_check None db_id m = (Done (- EINVAL), m).
Proof.
  split; [|split; reflexivity].
  intros H hsp.
  assert (E : check_doorbell_id_is_valid db_id = false).
  { destruct (check_doorbell_id_is_valid db_id) eqn:E; [|reflexivity].
    apply valid_id_range in E.
    unfold CCPLEX_PM_DBELL, APE_DBELL in H. lia. }
  unfold tx2_hsp_doorbell_ring, tx2_hsp_doorbell_check. rewrite E.
  destruct hsp; split; reflexivity.
Qed.

Lemma invalid_arguments_rejected_witness :
  tx2_hsp_doorbell_ring (Some 0%nat) 7 sim_ready = (Done (- EINVAL), sim_ready) /\
  tx2_hsp_doorbell_check (Some 0%nat) 7 sim_ready = (Done (- EINVAL), sim_ready).
Proof.
  apply (proj1 (invalid_arguments_rejected 7 sim_ready)).
  right. vm_compute. reflexivity.
Defined.

(** C6: [tx2_hsp_init] asks the mapping service for the fixed HSP region
    ([TX2_HSP_PADDR], [TX2_HSP_SIZE]) whose type is PMEM_TYPE_DEVICE, with
    the cached argument false; the flags argument is PS_MEM_NORMAL.  It is
    the first thing it does and its only mapping request. *)
Theorem init_maps_uncached_device_region
    (paddr size : Z) (io : ps_io_ops_t) (p : nat) (m : machine) :
  exists r rest,
    m_trace (snd (tx2_hsp_init paddr size (Some io) (Some p) m))
    = m_trace m ++ EvMap r false PS_MEM_NORMAL :: rest /\
    r = tx2_hsp_region paddr size /\
    type r = PMEM_TYPE_DEVICE /\ base_addr r = paddr /\ length r = size /\
    (forall e, In e rest -> exists a, e = EvRead a).
Proof.
  destruct (init_run paddr size io p m) as (_ & _ & _ & Hr).
  exists (tx2_hsp_region paddr size).
  destruct (io_map io _ false PS_MEM_NORMAL =? 0).
  - exists []. destruct Hr as (_ & Ht).
    repeat split; [exact Ht|]. intros e [].
  - eexists. destruct Hr as (_ & Ht & _).
    repeat split; [exact Ht|].
    intros e He. repeat (destruct He as [<-|He]; [eexists; reflexivity|]).
    destruct He.
Qed.

(** C7, as the code has it: with a non-null mapper and handle
    [tx2_hsp_destroy] returns 0 whatever status the unmap operation would
    report: when the handle holds a non-null mapped base it calls unmap
    once, on that base and the fixed length, and drops the outcome; with
    a null base it calls nothing.  Only a null mapper or handle gives
    -EINVAL, with nothing done. *)
Theorem destroy_returns_success
    (paddr size : Z) (io_ops : option ps_io_ops_t) (hsp : option nat)
    (m : machine) :
  tx2_hsp_destroy paddr size io_ops hsp m =
  match io_ops, hsp with
  | Some io, Some p =>
      (Done 0,
       {| m_handles := m_handles m;
          m_mem := m_mem m;
          m_trace := m_trace m
                     ++ (if hsp_base (m_handles m p) =? 0 then []
                         else [EvUnmap (hsp_base (m_handles m p)) size]) |})
  | _, _ => (Done (- EINVAL), m)
  end.
Proof.
  destruct io_ops as [io|], hsp as [p|]; try reflexivity.
  apply destroy_run.
Qed.

(** C7 fails as stated: on a handle with a mapped base and a mapper whose
    unmap operation reports an error, [tx2_hsp_destroy] calls unmap and
    still returns 0. *)
Lemma destroy_hides_unmap_failure :
  hsp_base (m_handles sim_ready 0%nat) <> 0 /\
  io_unmap sim_io (hsp_base (m_handles sim_ready 0%nat)) 0xa0000 <> 0 /\
  m_trace (snd (tx2_hsp_destroy 0x3c00000 0xa0000 (Some sim_io) (Some 0%nat)
                  sim_ready)) = [EvUnmap 0x1000 0xa0000] /\
  fst (tx2_hsp_destroy 0x3c00000 0xa0000 (Some sim_io) (Some 0%nat) sim_ready)
  = Done 0.
Proof.
  repeat split; vm_compute; try discriminate; reflexivity.
Qed.

(** C8: for a valid doorbell id, [tx2_hsp_doorbell_check] changes at most
    the one non-secure pending bit [bit << 16] of that id's own pending
    register: every other bit of the register (the secure half, bits 0 to
    15, and the other non-secure bits), every byte outside the register,
    and so the pending register of every other doorbell, keep their
    values; a check of another doorbell gives the same result after it as
    before it. *)
Theorem check_frame (p : nat) (db_id : Z) (m : machine) :
  check_doorbell_id_is_valid db_id = true ->
  let pending := fun id => doorbell_base (m_handles m p) + id * 0x100 + 0xc in
  let m' := snd (tx2_hsp_doorbell_check (Some p) db_id m) in
  exists bit n,
    doorbell_bitmap_offset db_id = Some bit /\
    Z.shiftl bit HSP_BITMAP_TZ_NONSECURE_SHIFT = 2 ^ n /\
    16 <= n < 32 /\
    (forall i, i <> n ->
       Z.testbit (load32 (m_mem m') (pending db_id)) i
       = Z.testbit (load32 (m_mem m) (pending db_id)) i) /\
    (forall x, x < pending db_id \/ pending db_id + 3 < x ->
       m_mem m' x = m_mem m x) /\
    (forall id, check_doorbell_id_is_valid id = true -> id <> db_id ->
       load32 (m_mem m') (pending id) = load32 (m_mem m) (pending id) /\
       fst (tx2_hsp_doorbell_check (Some p) id m')
       = fst (tx2_hsp_doorbell_check (Some p) id m)).
Proof.
  intros Hv pending m'.
  destruct (valid_id_bitmap db_id Hv) as (k & Hk & Hb).
  exists (2 ^ k), (k + 16). split; [exact Hb|].
  split.
  { unfold HSP_BITMAP_TZ_NONSECURE_SHIFT.
    rewrite Z.shiftl_mul_pow2, <- Z.pow_add_r by lia. reflexivity. }
  split; [lia|].
  pose proof (check_run p db_id k m Hv Hk Hb) as Hrun. cbv zeta in Hrun.
  fold (pending db_id) in Hrun.
  set (v := load32 (m_mem m) (pending db_id)) in *.
  assert (Hh : m_handles m' = m_handles m).
  { subst m'. rewrite Hrun. destruct (Z.testbit v (k + 16)); reflexivity. }
  assert (Hout : forall x, x < pending db_id \/ pending db_id + 3 < x ->
                           m_mem m' x = m_mem m x).
  { intros x Hx. subst m'. rewrite Hrun.
    destruct (Z.testbit v (k + 16)); cbn [snd m_mem]; [|reflexivity].
    apply store32_outside. exact Hx. }
  assert (Hother : forall id, check_doorbell_id_is_valid id = true ->
                     id <> db_id ->
                     load32 (m_mem m') (pending id) = load32 (m_mem m) (pending id)).
  { intros id Hid Hne. apply valid_id_range in Hid, Hv.
    unfold load32, byte_at. subst pending. cbv beta in *.
    rewrite !Hout by lia. reflexivity. }
  split; [|split; [exact Hout|]].
  - intros i Hi. subst m'. rewrite Hrun.
    destruct (Z.testbit v (k + 16)); cbn [snd m_mem]; [|reflexivity].
    rewrite load32_store32_same.
    rewrite wrap32_clearbit by apply load32_range.
    apply Z.clearbit_neq. lia.
  - intros id Hid Hne. split; [apply Hother; assumption|].
    destruct (valid_id_bitmap id Hid) as (k' & Hk' & Hb').
    rewrite (check_run p id k' m' Hid Hk' Hb').
    rewrite (check_run p id k' m Hid Hk' Hb').
    rewrite Hh. fold (pending id). rewrite (Hother id Hid Hne).
    destruct (Z.testbit _ (k' + 16)); reflexivity.
Qed.

Lemma check_frame_witness :
  let pending := fun id => doorbell_base (m_handles sim_ready 0%nat) + id * 0x100 + 0xc in
  let m' := snd (tx2_hsp_doorbell_check (Some 0%nat) BPMP_DBELL sim_ready) in
  exists bit n,
    doorbell_bitmap_offset BPMP_DBELL = Some bit /\
    Z.shiftl bit HSP_BITMAP_TZ_NONSECURE_SHIFT = 2 ^ n /\
    16 <= n < 32 /\
    (forall i, i <> n ->
       Z.testbit (load32 (m_mem m') (pending BPMP_DBELL)) i
       = Z.testbit (load32 (m_mem sim_ready) (pending BPMP_DBELL)) i) /\
    (forall x, x < pending BPMP_DBELL \/ pending BPMP_DBELL + 3 < x ->
       m_mem m' x = m_mem sim_ready x) /\
    (forall id, check_doorbell_id_is_valid id = true -> id <> BPMP_DBELL ->
       load32 (m_mem m') (pending id) = load32 (m_mem sim_ready) (pending id) /\
       fst (tx2_hsp_doorbell_check (Some 0%nat) id m')
       = fst (tx2_hsp_doorbell_check (Some 0%nat) id sim_ready)).
Proof.
  apply (check_frame 0%nat BPMP_DBELL sim_ready).
  vm_compute. reflexivity.
Defined.

(** C9: every doorbell id that passes [check_doorbell_id_is_valid]
    (CCPLEX_PM_DBELL to APE_DBELL) has an entry in the switch of
    [tx2_hsp_doorbell_check]: the default branch is not taken, the bit
    test is made with the id's assigned bit, and the check ends with a
    result, 0 or 1, on every handle and machine. *)
Theorem valid_id_has_bitmap (db_id : Z) :
  check_doorbell_id_is_valid db_id = true ->
  (exists bit, doorbell_bitmap_offset db_id = Some bit /\
               In bit [CCPLEX_BIT; BPMP_BIT; SPE_BIT; SCE_BIT; APE_BIT]) /\
  forall p m,
    fst (tx2_hsp_doorbell_check (Some p) db_id m) = Done 0 \/
    fst (tx2_hsp_doorbell_check (Some p) db_id m) = Done 1.
Proof.
  intros Hv. split.
  - apply valid_id_range in Hv.
    assert (C : db_id = 0 \/ db_id = 1 \/ db_id = 2 \/ db_id = 3
                \/ db_id = 4 \/ db_id = 5 \/ db_id = 6) by lia.
    destruct C as [->|[->|[->|[->|[->|[->| ->]]]]]];
      eexists; (split; [reflexivity|]); cbn [In]; tauto.
  - intros p m. destruct (valid_id_bitmap db_id Hv) as (k & Hk & Hb).
    rewrite (check_run p db_id k m Hv Hk Hb).
    destruct (Z.testbit _ (k + 16)); [right|left]; reflexivity.
Qed.

Lemma valid_id_has_bitmap_witness :
  (exists bit, doorbell_bitmap_offset SCE_DBELL = Some bit /\
               In bit [CCPLEX_BIT; BPMP_BIT; SPE_BIT; SCE_BIT; APE_BIT]) /\
  forall p m,
    fst (tx2_hsp_doorbell_check (Some p) SCE_DBELL m) = Done 0 \/
    fst (tx2_hsp_doorbell_check (Some p) SCE_DBELL m) = Done 1.
Proof.
  apply (valid_id_has_bitmap SCE_DBELL). vm_compute. reflexivity.
Defined.

(** C10: [tx2_hsp_doorbell_ring] and [tx2_hsp_doorbell_check] leave every
    handle structure as it was, on every input and whether they succeed,
    fail or stop; so does [tx2_hsp_destroy].  Of the four operations only
    [tx2_hsp_init] assigns [hsp_base] or [doorbell_base]. *)
Theorem handles_unchanged
    (paddr size : Z) (io_ops : option ps_io_ops_t) (hsp : option nat)
    (db_id : Z) (m : machine) :
  m_handles (snd (tx2_hsp_doorbell_ring hsp db_id m)) = m_handles m /\
  m_handles (snd (tx2_hsp_doorbell_check hsp db_id m)) = m_handles m /\
  m_handles (snd (tx2_hsp_destroy paddr size io_ops hsp m)) = m_handles m.
Proof.
  split; [|split].
  - destruct hsp as [p|]; [|reflexivity].
    destruct (check_doorbell_id_is_valid db_id) eqn:Hv.
    + rewrite (ring_run p db_id m Hv).
      destruct (_ =? 0); reflexivity.
    + unfold tx2_hsp_doorbell_ring. rewrite Hv. reflexivity.
  - destruct hsp as [p|]; [|reflexivity].
    destruct (check_doorbell_id_is_valid db_id) eqn:Hv.
    + destruct (valid_id_bitmap db_id Hv) as (k & Hk & Hb).
      rewrite (check_run p db_id k m Hv Hk Hb).
      destruct (Z.testbit _ (k + 16)); reflexivity.
    + unfold tx2_hsp_doorbell_check. rewrite Hv. reflexivity.
  - destruct io_ops as [io|], hsp as [p|]; try reflexivity.
    rewrite destroy_run. reflexivity.
Qed.

(* ================================================================== *)
(** * Further properties: initialisation *)

Lemma init_fail_run (paddr size : Z) (io : ps_io_ops_t) (p : nat) (m : machine) :
  io_map io (tx2_hsp_region paddr size) false PS_MEM_NORMAL = 0 ->
  tx2_hsp_init paddr size (Some io) (Some p) m =
  (Done (- ENOMEM),
   {| m_handles := fun q => if Nat.eqb q p
                            then {| hsp_base := 0;
                                    doorbell_base := doorbell_base (m_handles m p) |}
                            else m_handles m q;
      m_mem := m_mem m;
      m_trace := m_trace m
                 ++ [EvMap (tx2_hsp_region paddr size) false PS_MEM_NORMAL] |}).
Proof.
  intros Hb. destruct m as [hs mm tr].
  unfold tx2_hsp_init. run_monad. rewrite Hb, Nat.eqb_refl.
  cbn [hsp_base]. reflexivity.
Qed.

(** X1: [tx2_hsp_init] always ends with a result: -EINVAL when the mapper
    or the handle is null, and then the machine is untouched (nothing
    mapped, read or stored); -ENOMEM when the mapping service gives a null
    address; 0 otherwise. *)
Theorem init_result_codes
    (paddr size : Z) (io_ops : option ps_io_ops_t) (hsp : option nat)
    (m : machine) :
  fst (tx2_hsp_init paddr size io_ops hsp m) =
  match io_ops, hsp with
  | Some io, Some _ =>
      if io_map io (tx2_hsp_region paddr size) false PS_MEM_NORMAL =? 0
      then Done (- ENOMEM) else Done 0
  | _, _ => Done (- EINVAL)
  end /\
  (io_ops = None \/ hsp = None ->
   snd (tx2_hsp_init paddr size io_ops hsp m) = m).
Proof.
  split.
  - destruct io_ops as [io|], hsp as [p|]; try reflexivity.
    destruct (init_run paddr size io p m) as (_ & _ & _ & Hr).
    fold (tx2_hsp_region paddr size) in Hr.
    destruct (_ =? 0); apply Hr.
  - intros [-> | ->]; [reflexivity|]. destruct io_ops; reflexivity.
Qed.

Lemma init_result_codes_witness :
  snd (tx2_hsp_init 0x3c00000 0xa0000 None (Some 0%nat) sim_fresh) = sim_fresh.
Proof.
  apply (proj2 (init_result_codes 0x3c00000 0xa0000 None (Some 0%nat) sim_fresh)).
  left. reflexivity.
Defined.

(** X2: when the mapping fails, [tx2_hsp_init] has already stored the null
    address in the handle's [hsp_base]; it leaves [doorbell_base] as it
    was, reads no register, and returns -ENOMEM after the one mapping
    request. *)
Theorem init_map_failure
    (paddr size : Z) (io : ps_io_ops_t) (p : nat) (m : machine) :
  io_map io (tx2_hsp_region paddr size) false PS_MEM_NORMAL = 0 ->
  let r := tx2_hsp_init paddr size (Some io) (Some p) m in
  fst r = Done (- ENOMEM) /\
  hsp_base (m_handles (snd r) p) = 0 /\
  doorbell_base (m_handles (snd r) p) = doorbell_base (m_handles m p) /\
  m_trace (snd r)
  = m_trace m ++ [EvMap (tx2_hsp_region paddr size) false PS_MEM_NORMAL].
Proof.
  intros Hb r. subst r. rewrite (init_fail_run paddr size io p m Hb).
  cbn [fst snd m_handles m_trace]. rewrite Nat.eqb_refl.
  repeat split.
Qed.

Lemma init_map_failure_witness :
  let io := {| io_map := fun _ _ _ => 0; io_unmap := fun _ _ => 0 |} in
  let r := tx2_hsp_init 0x3c00000 0xa0000 (Some io) (Some 0%nat) sim_ready in
  fst r = Done (- ENOMEM) /\
  hsp_base (m_handles (snd r) 0%nat) = 0 /\
  doorbell_base (m_handles (snd r) 0%nat)
  = doorbell_base (m_handles sim_ready 0%nat) /\
  m_trace (snd r)
  = m_trace sim_ready
    ++ [EvMap (tx2_hsp_region 0x3c00000 0xa0000) false PS_MEM_NORMAL].
Proof.
  apply (init_map_failure 0x3c00000 0xa0000
           {| io_map := fun _ _ _ => 0; io_unmap := fun _ _ => 0 |}
           0%nat sim_ready).
  reflexivity.
Defined.

(** X3: [tx2_hsp_init] writes no register and unmaps nothing: the memory
    is unchanged, every handle other than the one passed is unchanged,
    and the accesses it adds to the trace are its mapping request and
    reads of the dimension register. *)
Theorem init_frame
    (paddr size : Z) (io_ops : option ps_io_ops_t) (hsp : option nat)
    (m : machine) :
  let r := tx2_hsp_init paddr size io_ops hsp m in
  m_mem (snd r) = m_mem m /\
  (forall q, hsp <> Some q -> m_handles (snd r) q = m_handles m q) /\
  exists ext,
    m_trace (snd r) = m_trace m ++ ext /\
    forall e, In e ext ->
      (exists rg c f, e = EvMap rg c f) \/
      (exists io, io_ops = Some io /\
         e = EvRead (io_map io (tx2_hsp_region paddr size) false PS_MEM_NORMAL
                     + HSP_INT_DIMENSION_OFFSET)).
Proof.
  intros r. subst r.
  destruct io_ops as [io|], hsp as [p|];
    try (cbn [tx2_hsp_init ret fst snd]; repeat split;
         exists []; split; [symmetry; apply app_nil_r|intros e []]).
  destruct (init_run paddr size io p m) as (Hm & _ & Hq & Hr).
  fold (tx2_hsp_region paddr size) in Hr.
  split; [exact Hm|]. split.
  - intros q Hne. apply Hq. congruence.
  - destruct (_ =? 0).
    + destruct Hr as (_ & Ht). eexists. split; [exact Ht|].
      intros e [<-|[]]. left. do 3 eexists. reflexivity.
    + destruct Hr as (_ & Ht & _). eexists. split; [exact Ht|].
      intros e He. destruct He as [<-|He]; [left; do 3 eexists; reflexivity|].
      right. exists io. split; [reflexivity|].
      repeat (destruct He as [<-|He]; [reflexivity|]). destruct He.
Qed.

Lemma init_frame_witness :
  m_handles (snd (tx2_hsp_init 0x3c00000 0xa0000 (Some sim_io) (Some 0%nat)
                    sim_fresh)) 1%nat
  = m_handles sim_fresh 1%nat.
Proof.
  apply (proj1 (proj2 (init_frame 0x3c00000 0xa0000 (Some sim_io)
                         (Some 0%nat) sim_fresh))).
  discriminate.
Defined.

(** X4: after a successful [tx2_hsp_init] the doorbell page starts a
    whole number of 64 KiB pages after the block, at least one and at most
    38: [hsp_base + 0x10000 <= doorbell_base <= hsp_base + 0x260000]; the
    offset, computed in [int], stays in the range of [int]. *)
Theorem init_doorbell_base_bounds
    (paddr size : Z) (io : ps_io_ops_t) (p : nat) (m : machine) :
  io_map io (tx2_hsp_region paddr size) false PS_MEM_NORMAL <> 0 ->
  let h := m_handles (snd (tx2_hsp_init paddr size (Some io) (Some p) m)) p in
  hsp_base h + 0x10000 <= doorbell_base h <= hsp_base h + 0x260000 /\
  (doorbell_base h - hsp_base h) mod 0x10000 = 0 /\
  to_int32 (doorbell_base h - hsp_base h) = doorbell_base h - hsp_base h.
Proof.
  intros Hb h. subst h.
  destruct (init_run paddr size io p m) as (_ & Hbase & _ & Hr).
  fold (tx2_hsp_region paddr size) in Hbase, Hr.
  set (b := io_map io (tx2_hsp_region paddr size) false PS_MEM_NORMAL) in *.
  destruct (Z.eqb_spec b 0) as [E|_]; [contradiction|].
  destruct Hr as (_ & _ & Hdb). rewrite Hdb, Hbase.
  set (d := load32 (m_mem m) (b + 896)).
  pose proof (Z.mod_pos_bound (d / 2 ^ 0) 16 ltac:(lia)) as H0.
  pose proof (Z.mod_pos_bound (d / 2 ^ 4) 16 ltac:(lia)) as H4.
  pose proof (Z.mod_pos_bound (d / 2 ^ 8) 16 ltac:(lia)) as H8.
  assert (Hh : 0 <= (d / 2 ^ 0) mod 16 / 2 <= 7).
  { split; [apply Z.div_pos; lia|].
    apply Z.lt_succ_r. apply Z.div_lt_upper_bound; lia. }
  set (k := 1 + (d / 2 ^ 0) mod 16 / 2 + (d / 2 ^ 4) mod 16 + (d / 2 ^ 8) mod 16) in *.
  assert (Hk : 1 <= k <= 38) by (subst k; lia).
  replace (b + k * 65536 - b) with (k * 65536) by lia.
  split; [lia|]. split.
  - apply Z.mod_mul. lia.
  - apply to_int32_small. lia.
Qed.

Lemma init_doorbell_base_bounds_witness :
  let h := m_handles (snd (tx2_hsp_init 0x3c00000 0xa0000 (Some sim_io)
                             (Some 0%nat) sim_fresh)) 0%nat in
  hsp_base h + 0x10000 <= doorbell_base h <= hsp_base h + 0x260000 /\
  (doorbell_base h - hsp_base h) mod 0x10000 = 0 /\
  to_int32 (doorbell_base h - hsp_base h) = doorbell_base h - hsp_base h.
Proof.
  apply (init_doorbell_base_bounds 0x3c00000 0xa0000 sim_io 0%nat sim_fresh).
  vm_compute. discriminate.
Defined.

Lemma dimension_fields_from_bits_1_to_11 (d : Z) :
  let x := (d / 2) mod 2048 in
  (d / 1) mod 16 / 2 = x mod 8 /\
  (d / 16) mod 16 = (x / 8) mod 16 /\
  (d / 256) mod 16 = (x / 128) mod 16.
Proof.
  intros x. subst x. repeat split.
  - Z.div_mod_to_equations. lia.
  - Z.div_mod_to_equations. lia.
  - Z.div_mod_to_equations. lia.
Qed.

(** X5: the doorbell base computed by a successful [tx2_hsp_init] depends
    only on bits 1 to 11 of the dimension register: two register values
    that agree there (whatever bit 0 and bits 12 to 31 hold) give the same
    [doorbell_base]. *)
Theorem init_ignores_reserved_bits
    (paddr size : Z) (io : ps_io_ops_t) (p : nat) (m1 m2 : machine) :
  let b := io_map io (tx2_hsp_region paddr size) false PS_MEM_NORMAL in
  b <> 0 ->
  (load32 (m_mem m1) (b + 0x380) / 2) mod 2 ^ 11
  = (load32 (m_mem m2) (b + 0x380) / 2) mod 2 ^ 11 ->
  doorbell_base (m_handles (snd (tx2_hsp_init paddr size (Some io) (Some p) m1)) p)
  = doorbell_base (m_handles (snd (tx2_hsp_init paddr size (Some io) (Some p) m2)) p).
Proof.
  intros b Hb Hd.
  destruct (init_run paddr size io p m1) as (_ & _ & _ & Hr1).
  destruct (init_run paddr size io p m2) as (_ & _ & _ & Hr2).
  fold (tx2_hsp_region paddr size) in Hr1, Hr2. fold b in Hr1, Hr2.
  destruct (Z.eqb_spec b 0) as [E|_]; [contradiction|].
  destruct Hr1 as (_ & _ & ->). destruct Hr2 as (_ & _ & ->).
  set (d1 := load32 (m_mem m1) (b + 896)) in *.
  set (d2 := load32 (m_mem m2) (b + 896)) in *.
  change (2 ^ 0) with 1. change (2 ^ 4) with 16. change (2 ^ 8) with 256.
  change (2 ^ 11) with 2048 in Hd.
  destruct (dimension_fields_from_bits_1_to_11 d1) as (-> & -> & ->).
  destruct (dimension_fields_from_bits_1_to_11 d2) as (-> & -> & ->).
  rewrite Hd. reflexivity.
Qed.

Lemma init_ignores_reserved_bits_witness :
  doorbell_base (m_handles (snd (tx2_hsp_init 0x3c00000 0xa0000 (Some sim_io)
                                   (Some 0%nat) sim_fresh)) 0%nat)
  = doorbell_base
      (m_handles
         (snd (tx2_hsp_init 0x3c00000 0xa0000 (Some sim_io) (Some 0%nat)
                 {| m_handles := m_handles sim_fresh;
                    m_mem := store32 sim_mem 0x1380 0xfffff125;
                    m_trace := [] |})) 0%nat).
Proof.
  apply (init_ignores_reserved_bits 0x3c00000 0xa0000 sim_io 0%nat sim_fresh
           {| m_handles := m_handles sim_fresh;
              m_mem := store32 sim_mem 0x1380 0xfffff125;
              m_trace := [] |}).
  - vm_compute. discriminate.
  - vm_compute. reflexivity.
Defined.

(* ================================================================== *)
(** * Further properties: teardown *)

(** X6: [tx2_hsp_destroy] after a successful [tx2_hsp_init] returns 0 and
    unmaps exactly what was mapped: the one unmap call is on the address
    the mapping service returned and on the length of the region that was
    requested. *)
Theorem init_then_destroy_pairs
    (paddr size : Z) (io io' : ps_io_ops_t) (p : nat) (m : machine) :
  let region := tx2_hsp_region paddr size in
  let b := io_map io region false PS_MEM_NORMAL in
  b <> 0 ->
  let m1 := snd (tx2_hsp_init paddr size (Some io) (Some p) m) in
  let r := tx2_hsp_destroy paddr size (Some io') (Some p) m1 in
  fst r = Done 0 /\
  m_trace (snd r)
  = m_trace m ++ [EvMap region false PS_MEM_NORMAL;
                  EvRead (b + 0x380); EvRead (b + 0x380); EvRead (b + 0x380);
                  EvUnmap b (length region)].
Proof.
  intros region b Hb m1 r. subst r. rewrite destroy_run.
  cbn [fst snd m_trace].
  destruct (init_run paddr size io p m) as (_ & Hbase & _ & Hr).
  change (io_map io _ false PS_MEM_NORMAL) with b in Hbase, Hr.
  fold m1 in Hbase, Hr. rewrite Hbase.
  destruct (Z.eqb_spec b 0) as [E|_]; [contradiction|].
  destruct Hr as (_ & -> & _).
  split; [reflexivity|]. rewrite <- app_assoc. reflexivity.
Qed.

Lemma init_then_destroy_pairs_witness :
  let region := tx2_hsp_region 0x3c00000 0xa0000 in
  let m1 := snd (tx2_hsp_init 0x3c00000 0xa0000 (Some sim_io) (Some 0%nat)
                   sim_fresh) in
  let r := tx2_hsp_destroy 0x3c00000 0xa0000 (Some sim_io) (Some 0%nat) m1 in
  fst r = Done 0 /\
  m_trace (snd r)
  = m_trace sim_fresh
    ++ [EvMap region false PS_MEM_NORMAL;
        EvRead (0x1000 + 0x380); EvRead (0x1000 + 0x380);
        EvRead (0x1000 + 0x380); EvUnmap 0x1000 (length region)].
Proof.
  apply (init_then_destroy_pairs 0x3c00000 0xa0000 sim_io sim_io 0%nat
           sim_fresh).
  vm_compute. discriminate.
Defined.

(** X7: [tx2_hsp_destroy] does not clear the handle: on a handle with a
    mapped base a second destroy returns 0 again and unmaps the same
    address a second time, and the handle still holds that address. *)
Theorem destroy_twice_unmaps_twice
    (paddr size : Z) (io : ps_io_ops_t) (p : nat) (m : machine) :
  hsp_base (m_handles m p) <> 0 ->
  let b := hsp_base (m_handles m p) in
  let m1 := snd (tx2_hsp_destroy paddr size (Some io) (Some p) m) in
  let r := tx2_hsp_destroy paddr size (Some io) (Some p) m1 in
  fst r = Done 0 /\
  m_trace (snd r) = m_trace m ++ [EvUnmap b size; EvUnmap b size] /\
  hsp_base (m_handles (snd r) p) = b.
Proof.
  intros Hb b m1 r. subst r m1. rewrite !destroy_run.
  cbn [fst snd m_handles m_trace]. fold b.
  destruct (Z.eqb_spec b 0) as [E|_]; [contradiction|].
  repeat split. rewrite <- app_assoc. reflexivity.
Qed.

Lemma destroy_twice_unmaps_twice_witness :
  let m1 := snd (tx2_hsp_destroy 0x3c00000 0xa0000 (Some sim_io) (Some 0%nat)
                   sim_ready) in
  let r := tx2_hsp_destroy 0x3c00000 0xa0000 (Some sim_io) (Some 0%nat) m1 in
  fst r = Done 0 /\
  m_trace (snd r)
  = m_trace sim_ready ++ [EvUnmap 0x1000 0xa0000; EvUnmap 0x1000 0xa0000] /\
  hsp_base (m_handles (snd r) 0%nat) = 0x1000.
Proof.
  apply (destroy_twice_unmaps_twice 0x3c00000 0xa0000 sim_io 0%nat sim_ready).
  vm_compute. discriminate.
Defined.

(** X8: after a failed [tx2_hsp_init] the handle holds the null base, so
    [tx2_hsp_destroy] returns 0 without calling unmap. *)
Theorem failed_init_then_destroy
    (paddr size : Z) (io io' : ps_io_ops_t) (p : nat) (m : machine) :
  io_map io (tx2_hsp_region paddr size) false PS_MEM_NORMAL = 0 ->
  let m1 := snd (tx2_hsp_init paddr size (Some io) (Some p) m) in
  let r := tx2_hsp_destroy paddr size (Some io') (Some p) m1 in
  fst r = Done 0 /\ m_trace (snd r) = m_trace m1 /\
  m_trace m1
  = m_trace m ++ [EvMap (tx2_hsp_region paddr size) false PS_MEM_NORMAL].
Proof.
  intros Hb m1 r. subst r m1.
  rewrite (init_fail_run paddr size io p m Hb), destroy_run.
  cbn [fst snd m_handles m_trace]. rewrite Nat.eqb_refl. cbn [hsp_base].
  change (0 =? 0) with true. cbv iota. rewrite app_nil_r.
  repeat split.
Qed.

Lemma failed_init_then_destroy_witness :
  let io := {| io_map := fun _ _ _ => 0; io_unmap := fun _ _ => 0 |} in
  let m1 := snd (tx2_hsp_init 0x3c00000 0xa0000 (Some io) (Some 0%nat)
                   sim_fresh) in
  let r := tx2_hsp_destroy 0x3c00000 0xa0000 (Some sim_io) (Some 0%nat) m1 in
  fst r = Done 0 /\ m_trace (snd r) = m_trace m1 /\
  m_trace m1
  = m_trace sim_fresh
    ++ [EvMap (tx2_hsp_region 0x3c00000 0xa0000) false PS_MEM_NORMAL].
Proof.
  apply (failed_init_then_destroy 0x3c00000 0xa0000
           {| io_map := fun _ _ _ => 0; io_unmap := fun _ _ => 0 |}
           sim_io 0%nat sim_fresh).
  reflexivity.
Defined.

(* ================================================================== *)
(** * Further properties: ring and check *)

Lemma ring_cases (hsp : option nat) (db_id : Z) (m : machine) :
  tx2_hsp_doorbell_ring hsp db_id m = (Done (- EINVAL), m) \/
  exists p, hsp = Some p /\ check_doorbell_id_is_valid db_id = true /\
    let a := doorbell_base (m_handles m p) + db_id * 0x100 + 0x0 in
    (a = 0 /\ tx2_hsp_doorbell_ring hsp db_id m = (Aborted, m)) \/
    (a <> 0 /\
     tx2_hsp_doorbell_ring hsp db_id m =
     (Done 0, {| m_handles := m_handles m;
                 m_mem := store32 (m_mem m) a 1;
                 m_trace := m_trace m ++ [EvWrite a 1] |})).
Proof.
  destruct hsp as [p|]; [|left; reflexivity].
  destruct (check_doorbell_id_is_valid db_id) eqn:Hv.
  - right. exists p. split; [reflexivity|]. split; [reflexivity|].
    cbv zeta. rewrite (ring_run p db_id m Hv).
    destruct (Z.eqb_spec (doorbell_base (m_handles m p) + db_id * 256 + 0) 0);
      [left|right]; split; auto.
  - left. unfold tx2_hsp_doorbell_ring. rewrite Hv. reflexivity.
Qed.

Lemma check_cases (hsp : option nat) (db_id : Z) (m : machine) :
  ((hsp = None \/ check_doorbell_id_is_valid db_id = false) /\
   tx2_hsp_doorbell_check hsp db_id m = (Done (- EINVAL), m)) \/
  exists p k, hsp = Some p /\ check_doorbell_id_is_valid db_id = true /\
    1 <= k <= 11 /\
    let a := doorbell_base (m_handles m p) + db_id * 0x100 + 0xc in
    let v := load32 (m_mem m) a in
    tx2_hsp_doorbell_check hsp db_id m =
    if Z.testbit v (k + 16)
    then (Done 1,
          {| m_handles := m_handles m;
             m_mem := store32 (m_mem m) a (Z.clearbit v (k + 16));
             m_trace := m_trace m
                        ++ [EvRead a; EvRead a; EvWrite a (Z.clearbit v (k + 16))] |})
    else (Done 0,
          {| m_handles := m_handles m;
             m_mem := m_mem m;
             m_trace := m_trace m ++ [EvRead a] |}).
Proof.
  destruct hsp as [p|]; [|left; split; [left|]; reflexivity].
  destruct (check_doorbell_id_is_valid db_id) eqn:Hv.
  - right. destruct (valid_id_bitmap db_id Hv) as (k & Hk & Hb).
    exists p, k. repeat split; try lia.
    apply (check_run p db_id k m Hv Hk Hb).
  - left. split; [right; reflexivity|].
    unfold tx2_hsp_doorbell_check. rewrite Hv. reflexivity.
Qed.


(** X10: for a valid doorbell id, a check that directly follows a check
    of the same doorbell returns 0, whatever the first one returned, and
    only reads: the memory stays as the first check left it. *)
Theorem second_check_only_reads (p : nat) (db_id : Z) (m : machine) :
  check_doorbell_id_is_valid db_id = true ->
  let a := doorbell_base (m_handles m p) + db_id * 0x100 + 0xc in
  let m1 := snd (tx2_hsp_doorbell_check (Some p) db_id m) in
  tx2_hsp_doorbell_check (Some p) db_id m1 =
  (Done 0, {| m_handles := m_handles m1;
              m_mem := m_mem m1;
              m_trace := m_trace m1 ++ [EvRead a] |}).
Proof.
  intros Hv a m1.
  destruct (valid_id_bitmap db_id Hv) as (k & Hk & Hb).
  rewrite (check_run p db_id k m1 Hv Hk Hb).
  assert (Hh : m_handles m1 = m_handles m).
  { subst m1. rewrite (check_run p db_id k m Hv Hk Hb).
    destruct (Z.testbit _ (k + 16)); reflexivity. }
  rewrite Hh. fold a.
  assert (Hbit : Z.testbit (load32 (m_mem m1) a) (k + 16) = false).
  { subst m1. rewrite (check_run p db_id k m Hv Hk Hb). fold a.
    destruct (Z.testbit (load32 (m_mem m) a) (k + 16)) eqn:Ht; cbn [snd m_mem].
    - rewrite load32_store32_same.
      rewrite wrap32_clearbit by apply load32_range.
      apply Z.clearbit_eq.
    - exact Ht. }
  rewrite Hbit. reflexivity.
Qed.

Lemma second_check_only_reads_witness :
  let a := doorbell_base (m_handles sim_ready 0%nat) + BPMP_DBELL * 0x100 + 0xc in
  let m1 := snd (tx2_hsp_doorbell_check (Some 0%nat) BPMP_DBELL sim_ready) in
  tx2_hsp_doorbell_check (Some 0%nat) BPMP_DBELL m1 =
  (Done 0, {| m_handles := m_handles m1;
              m_mem := m_mem m1;
              m_trace := m_trace m1 ++ [EvRead a] |}).
Proof.
  apply (second_check_only_reads 0%nat BPMP_DBELL sim_ready).
  vm_compute. reflexivity.
Defined.

(** X11: every result [tx2_hsp_doorbell_check] returns is -EINVAL, 0 or
    1, and it is -EINVAL exactly when the handle is null or the id is out
    of range: a negative result always means a rejected argument, and 0
    and 1 are answers about the pending bit. *)
Theorem check_result_codes (hsp : option nat) (db_id : Z) (m : machine) (r : Z) :
  fst (tx2_hsp_doorbell_check hsp db_id m) = Done r ->
  (r = - EINVAL \/ r = 0 \/ r = 1) /\
  (r = - EINVAL <-> hsp = None \/ check_doorbell_id_is_valid db_id = false).
Proof.
  destruct (check_cases hsp db_id m) as [(Hc & E)|(p & k & -> & Hv & Hk & E)].
  - rewrite E. cbn [fst]. intros [= <-].
    split; [left; reflexivity|]. split; auto.
  - cbv zeta in E. rewrite E.
    destruct (Z.testbit _ (k + 16)); cbn [fst]; intros [= <-].
    + split; [right; right; reflexivity|]. split; [discriminate|].
      intros [H|H]; [discriminate|congruence].
    + split; [right; left; reflexivity|]. split; [discriminate|].
      intros [H|H]; [discriminate|congruence].
Qed.

Lemma check_result_codes_witness :
  (1 = - EINVAL \/ 1 = 0 \/ 1 = 1) /\
  (1 = - EINVAL <->
   Some 0%nat = None \/ check_doorbell_id_is_valid BPMP_DBELL = false).
Proof.
  apply (check_result_codes (Some 0%nat) BPMP_DBELL sim_ready 1).
  vm_compute. reflexivity.
Defined.

(** X12: [tx2_hsp_doorbell_ring] stops at its assertion exactly when the
    handle is not null, the id is valid and the trigger register pointer
    [doorbell_base + db_id * 0x100] is null; it has then accessed nothing.
    Every result it returns is 0 or -EINVAL. *)
Theorem ring_outcomes (hsp : option nat) (db_id : Z) (m : machine) :
  (fst (tx2_hsp_doorbell_ring hsp db_id m) = Aborted <->
   exists p, hsp = Some p /\ check_doorbell_id_is_valid db_id = true /\
             doorbell_base (m_handles m p) + db_id * 0x100 = 0) /\
  (fst (tx2_hsp_doorbell_ring hsp db_id m) = Aborted ->
   snd (tx2_hsp_doorbell_ring hsp db_id m) = m) /\
  (forall r, fst (tx2_hsp_doorbell_ring hsp db_id m) = Done r ->
             r = 0 \/ r = - EINVAL).
Proof.
  destruct (ring_cases hsp db_id m)
    as [E|(p & Hp & Hv & [(Ha & E)|(Ha & E)])]; rewrite E; cbn [fst snd].
  - split; [|split].
    + split; [discriminate|].
      intros (p & -> & Hv & Ha).
      rewrite (ring_run p db_id m Hv) in E.
      replace (doorbell_base (m_handles m p) + db_id * 256 + 0) with 0 in E
        by lia.
      discriminate.
    + discriminate.
    + intros r [= <-]. right. reflexivity.
  - split; [|split].
    + split; [|reflexivity].
      intros _. exists p. repeat split; try assumption. lia.
    + reflexivity.
    + intros r H. discriminate H.
  - split; [|split].
    + split; [discriminate|].
      intros (q & Hq & _ & Hz). rewrite Hp in Hq. injection Hq as <-. lia.
    + discriminate.
    + intros r [= <-]. left. reflexivity.
Qed.

Lemma ring_outcomes_witness :
  snd (tx2_hsp_doorbell_ring (Some 0%nat) CCPLEX_PM_DBELL sim_fresh) = sim_fresh.
Proof.
  apply (proj1 (proj2 (ring_outcomes (Some 0%nat) CCPLEX_PM_DBELL sim_fresh))).
  vm_compute. reflexivity.
Defined.

(* ================================================================== *)
(** * Further properties: register layout and the doorbell table *)

(** X13: for a non-null handle and valid doorbell ids,
    [tx2_hsp_get_doorbell_register] always yields an address, every
    32-bit register it yields lies inside the one 64 KiB doorbell page
    starting at [doorbell_base], and two different (id, register) pairs
    give registers that do not overlap. *)
Theorem doorbell_registers_layout
    (p : nat) (m : machine) (db_id db_id' : Z) (o o' : dbell_reg_offset) :
  check_doorbell_id_is_valid db_id = true ->
  check_doorbell_id_is_valid db_id' = true ->
  exists a a',
    tx2_hsp_get_doorbell_register (Some p) db_id o m = (Done a, m) /\
    tx2_hsp_get_doorbell_register (Some p) db_id' o' m = (Done a', m) /\
    doorbell_base (m_handles m p) <= a /\
    a + 4 <= doorbell_base (m_handles m p) + 0x10000 /\
    ((db_id, o) <> (db_id', o') -> a + 4 <= a' \/ a' + 4 <= a).
Proof.
  intros Hv Hv'. apply valid_id_range in Hv, Hv'.
  do 2 eexists. rewrite !get_doorbell_register_run.
  split; [reflexivity|]. split; [reflexivity|].
  assert (Ho : 0 <= dbell_reg_offset_val o <= 12) by (destruct o; cbn; lia).
  split; [lia|]. split; [lia|].
  intros Hne.
  destruct o, o'; cbn [dbell_reg_offset_val]; try lia;
    (assert (db_id <> db_id') by (intros ->; apply Hne; reflexivity); lia).
Qed.

Lemma doorbell_registers_layout_witness :
  exists a a',
    tx2_hsp_get_doorbell_register (Some 0%nat) BPMP_DBELL DBELL_PENDING sim_ready
    = (Done a, sim_ready) /\
    tx2_hsp_get_doorbell_register (Some 0%nat) SPE_DBELL DBELL_TRIGGER sim_ready
    = (Done a', sim_ready) /\
    doorbell_base (m_handles sim_ready 0%nat) <= a /\
    a + 4 <= doorbell_base (m_handles sim_ready 0%nat) + 0x10000 /\
    ((BPMP_DBELL, DBELL_PENDING) <> (SPE_DBELL, DBELL_TRIGGER) ->
     a + 4 <= a' \/ a' + 4 <= a).
Proof.
  apply (doorbell_registers_layout 0%nat sim_ready BPMP_DBELL SPE_DBELL
           DBELL_PENDING DBELL_TRIGGER); vm_compute; reflexivity.
Defined.

Lemma ring_frame (p : nat) (db_id : Z) (m : machine) :
  let a := doorbell_base (m_handles m p) + db_id * 0x100 in
  let m' := snd (tx2_hsp_doorbell_ring (Some p) db_id m) in
  m_handles m' = m_handles m /\
  forall x, (check_doorbell_id_is_valid db_id = true -> x < a \/ a + 3 < x) ->
            m_mem m' x = m_mem m x.
Proof.
  intros a m'. subst m'.
  destruct (ring_cases (Some p) db_id m)
    as [E|(q & Hq & Hv & [(_ & E)|(_ & E)])]; rewrite E; cbn [snd];
    try (split; reflexivity).
  injection Hq as <-. cbn [m_handles m_mem]. split; [reflexivity|].
  intros x Hx. apply store32_outside. specialize (Hx Hv). subst a. lia.
Qed.

Lemma check_bytes_frame (p : nat) (db_id : Z) (m : machine) :
  let a := doorbell_base (m_handles m p) + db_id * 0x100 + 0xc in
  let m' := snd (tx2_hsp_doorbell_check (Some p) db_id m) in
  m_handles m' = m_handles m /\
  forall x, (check_doorbell_id_is_valid db_id = true -> x < a \/ a + 3 < x) ->
            m_mem m' x = m_mem m x.
Proof.
  intros a m'. subst m'.
  destruct (check_cases (Some p) db_id m)
    as [(_ & E)|(q & k & Hq & Hv & Hk & E)].
  - rewrite E. split; reflexivity.
  - injection Hq as <-. cbv zeta in E. rewrite E. fold a.
    destruct (Z.testbit _ (k + 16)); cbn [snd m_handles m_mem];
      (split; [reflexivity|]); [|reflexivity].
    intros x Hx. apply store32_outside. exact (Hx Hv).
Qed.

(** X14: the driver's own writes never reach the dimension register:
    after a successful [tx2_hsp_init], a [tx2_hsp_doorbell_ring] and a
    [tx2_hsp_doorbell_check] on any ids leave every byte below
    [hsp_base + 0x10000] as it was, so the dimension register at
    [hsp_base + 0x380] still holds the value initialisation read. *)
Theorem use_keeps_dimension_register
    (paddr size : Z) (io : ps_io_ops_t) (p : nat) (db_id db_id' : Z)
    (m : machine) :
  let b := io_map io (tx2_hsp_region paddr size) false PS_MEM_NORMAL in
  b <> 0 ->
  let m1 := snd (tx2_hsp_init paddr size (Some io) (Some p) m) in
  let m2 := snd (tx2_hsp_doorbell_ring (Some p) db_id m1) in
  let m3 := snd (tx2_hsp_doorbell_check (Some p) db_id' m2) in
  hsp_base (m_handles m3 p) = b /\
  (forall x, x < b + 0x10000 -> m_mem m3 x = m_mem m1 x) /\
  load32 (m_mem m3) (b + HSP_INT_DIMENSION_OFFSET)
  = load32 (m_mem m1) (b + HSP_INT_DIMENSION_OFFSET).
Proof.
  intros b Hb m1 m2 m3.
  destruct (ring_frame p db_id m1) as (Hh2 & Hm2). fold m2 in Hh2, Hm2.
  destruct (check_bytes_frame p db_id' m2) as (Hh3 & Hm3). fold m3 in Hh3, Hm3.
  destruct (init_run paddr size io p m) as (_ & Hb1 & _ & Hr1).
  change (io_map io _ false PS_MEM_NORMAL) with b in Hb1, Hr1.
  fold m1 in Hb1, Hr1.
  destruct (Z.eqb_spec b 0) as [|_]; [contradiction|].
  destruct Hr1 as (_ & _ & Hd1).
  set (d := load32 (m_mem m) (b + 896)) in *.
  pose proof (Z.mod_pos_bound (d / 2 ^ 0) 16 ltac:(lia)).
  pose proof (Z.mod_pos_bound (d / 2 ^ 4) 16 ltac:(lia)).
  pose proof (Z.mod_pos_bound (d / 2 ^ 8) 16 ltac:(lia)).
  assert (0 <= (d / 2 ^ 0) mod 16 / 2) by (apply Z.div_pos; lia).
  assert (Hout : forall x, x < b + 0x10000 -> m_mem m3 x = m_mem m1 x).
  { intros x Hx. rewrite Hm3, Hm2; try reflexivity.
    - intros Hv. apply valid_id_range in Hv. rewrite Hd1. lia.
    - intros Hv. apply valid_id_range in Hv. rewrite Hh2, Hd1. lia. }
  split; [rewrite Hh3, Hh2; exact Hb1|]. split; [exact Hout|].
  unfold load32, byte_at, HSP_INT_DIMENSION_OFFSET.
  rewrite !Hout by lia. reflexivity.
Qed.

Lemma use_keeps_dimension_register_witness :
  let m1 := snd (tx2_hsp_init 0x3c00000 0xa0000 (Some sim_io) (Some 0%nat)
                   sim_fresh) in
  let m2 := snd (tx2_hsp_doorbell_ring (Some 0%nat) SPE_DBELL m1) in
  let m3 := snd (tx2_hsp_doorbell_check (Some 0%nat) BPMP_DBELL m2) in
  hsp_base (m_handles m3 0%nat) = 0x1000 /\
  (forall x, x < 0x1000 + 0x10000 -> m_mem m3 x = m_mem m1 x) /\
  load32 (m_mem m3) (0x1000 + HSP_INT_DIMENSION_OFFSET)
  = load32 (m_mem m1) (0x1000 + HSP_INT_DIMENSION_OFFSET).
Proof.
  apply (use_keeps_dimension_register 0x3c00000 0xa0000 sim_io 0%nat
           SPE_DBELL BPMP_DBELL sim_fresh).
  vm_compute. discriminate.
Defined.

(** X15: the switch of [tx2_hsp_doorbell_check] has a case for an id
    exactly when [check_doorbell_id_is_valid] accepts it: no id outside
    the range has a doorbell bit and none inside lacks one. *)
Theorem switch_covers_exactly_valid_ids (db_id : Z) :
  doorbell_bitmap_offset db_id = None <->
  check_doorbell_id_is_valid db_id = false.
Proof.
  split.
  - intros Hn. destruct (check_doorbell_id_is_valid db_id) eqn:Hv;
      [|reflexivity].
    destruct (valid_id_bitmap db_id Hv) as (k & _ & Hb). congruence.
  - intros Hv.
    assert (Hr : ~ 0 <= db_id <= 6).
    { intros Hr. apply valid_id_range in Hr. congruence. }
    unfold doorbell_bitmap_offset, CCPLEX_PM_DBELL, CCPLEX_TZ_UNSECURE_DBELL,
      CCPLEX_TZ_SECURE_DBELL, BPMP_DBELL, SPE_DBELL, SCE_DBELL, APE_DBELL.
    repeat match goal with
           | |- context [?x =? ?y] => destruct (Z.eqb_spec x y); [lia|]
           end.
    reflexivity.
Qed.

(** X16: two valid doorbell ids are tested on the same pending bit
    exactly when they are equal or are both CCPLEX ids (CCPLEX_PM,
    CCPLEX_TZ_UNSECURE, CCPLEX_TZ_SECURE); BPMP, SPE, SCE and APE each
    have a bit of their own. *)
Theorem shared_bit_iff_ccplex (id1 id2 : Z) :
  check_doorbell_id_is_valid id1 = true ->
  check_doorbell_id_is_valid id2 = true ->
  (doorbell_bitmap_offset id1 = doorbell_bitmap_offset id2 <->
   id1 = id2 \/
   (id1 <= CCPLEX_TZ_SECURE_DBELL /\ id2 <= CCPLEX_TZ_SECURE_DBELL)).
Proof.
  intros H1 H2. apply valid_id_range in H1, H2.
  unfold CCPLEX_TZ_SECURE_DBELL.
  assert (C1 : id1 = 0 \/ id1 = 1 \/ id1 = 2 \/ id1 = 3
               \/ id1 = 4 \/ id1 = 5 \/ id1 = 6) by lia.
  assert (C2 : id2 = 0 \/ id2 = 1 \/ id2 = 2 \/ id2 = 3
               \/ id2 = 4 \/ id2 = 5 \/ id2 = 6) by lia.
  destruct C1 as [->|[->|[->|[->|[->|[->| ->]]]]]];
    destruct C2 as [->|[->|[->|[->|[->|[->| ->]]]]]];
    split; intros H;
    first [reflexivity | lia | (vm_compute in H; discriminate H)].
Qed.

Lemma shared_bit_iff_ccplex_witness :
  doorbell_bitmap_offset CCPLEX_PM_DBELL
  = doorbell_bitmap_offset CCPLEX_TZ_SECURE_DBELL <->
  CCPLEX_PM_DBELL = CCPLEX_TZ_SECURE_DBELL \/
  (CCPLEX_PM_DBELL <= CCPLEX_TZ_SECURE_DBELL /\
   CCPLEX_TZ_SECURE_DBELL <= CCPLEX_TZ_SECURE_DBELL).
Proof.
  apply (shared_bit_iff_ccplex CCPLEX_PM_DBELL CCPLEX_TZ_SECURE_DBELL);
    vm_compute; reflexivity.
Defined.
